(** * A shallow embedding of [stock.py]: order books, matching and traders

    The Python module keeps one global array [order_books] of
    [NUM_TICKERS] slots, each slot a pair [[buy_orders, sell_orders]] of
    lists of orders; an order is the four-element list
    [[order_type, ticker_symbol, quantity, price]].  The functions
    [addOrder] and [matchOrder] mutate that array in place, [worker] is a
    generator that derives one order per resumption from a linear
    congruential generator.

    The embedding passes the array explicitly, represents Python integers
    by [Z], strings by [string], exceptions by a result type, and the
    "Matched:" lines printed by the matching loop by a list of trades.
    The remaining [print] calls ([print_orders], "Adding order:", ...)
    only render state and are not part of the model. *)

From Stdlib Require Import ZArith Lia Ascii String DecimalString DecimalPos.
From stdpp Require Import base list list_numbers sorting strings.

Local Open Scope string_scope.
Local Open Scope list_scope.
Local Open Scope Z_scope.

(** ** Results of Python calls *)

Inductive exn : Type :=
| ValueError          (* int() of a string that is no integer literal *)
| IndexError          (* list index out of range *)
| ZeroDivisionError.  (* x % 0 *)

(** [Hang] is the outcome of a [while] loop that has not stopped within
    the bound the model gives it; [matchOrder_never_hangs] shows that it
    does not occur. *)
Inductive res (A : Type) : Type :=
| Ok (a : A)
| Raise (e : exn)
| Hang.
Arguments Ok {A} a.
Arguments Raise {A} e.
Arguments Hang {A}.

#[global] Instance res_ret : MRet res := fun A a => Ok a.

#[global] Instance res_bind : MBind res := fun A B k m =>
  match m with
  | Ok a => k a
  | Raise e => Raise e
  | Hang => Hang
  end.

(** ** Simulation constants *)

Definition NUM_TICKERS : Z := 1024.
Definition DEFAULT_NUM_WORKERS : Z := 5.
Definition DEFAULT_TRANSACTIONS : Z := 10.

Definition LCG_MULTIPLIER : Z := 1103515245.
Definition LCG_INCREMENT : Z := 12345.
Definition LCG_MODULUS : Z := 2 ^ 31.

(** ** Strings: [str.replace], [int] and [str] *)

Module PyStr.

(** [s.replace(old, "")] for a non-empty [old]: scan from the left, drop
    every non-overlapping occurrence.  [skip] counts the characters of
    an occurrence that are still to be dropped. *)
Fixpoint remove_from (old : string) (skip : nat) (s : string) : string :=
  match s with
  | EmptyString => EmptyString
  | String c s' =>
      match skip with
      | S k => remove_from old k s'
      | O =>
          if String.prefix old s
          then remove_from old (Nat.pred (String.length old)) s'
          else String c (remove_from old O s')
      end
  end.

Definition remove (old s : string) : string := remove_from old O s.

(** The ASCII characters that [int] strips from both ends. *)
Definition is_space (c : ascii) : bool :=
  let n := nat_of_ascii c in
  ((9 <=? n)%nat && (n <=? 13)%nat) || ((28 <=? n)%nat && (n <=? 32)%nat).

Definition digit_of (c : ascii) : option Z :=
  let n := nat_of_ascii c in
  if ((48 <=? n)%nat && (n <=? 57)%nat)%bool
  then Some (Z.of_nat n - 48) else None.

Fixpoint lstrip (s : string) : string :=
  match s with
  | String c s' => if is_space c then lstrip s' else s
  | EmptyString => EmptyString
  end.

Fixpoint all_space (s : string) : bool :=
  match s with
  | EmptyString => true
  | String c s' => is_space c && all_space s'
  end.

(** Decimal digits with single underscores between them, followed by
    white space only.  [acc] is the value read so far, [after_digit]
    tells whether the previous character was a digit. *)
Fixpoint digits (acc : Z) (after_digit : bool) (s : string) : option Z :=
  match s with
  | EmptyString => if after_digit then Some acc else None
  | String c s' =>
      match digit_of c with
      | Some d => digits (10 * acc + d) true s'
      | None =>
          if after_digit then
            if Ascii.eqb c "_" then
              match s' with
              | String c' _ =>
                  match digit_of c' with
                  | Some _ => digits acc false s'
                  | None => None
                  end
              | EmptyString => None
              end
            else if all_space s then Some acc else None
          else None
      end
  end.

(** [int(s)] in base 10 for an ASCII string: optional white space, an
    optional sign, digits.  Python also accepts the decimal digits and
    spaces of other scripts, which a byte string does not represent, and
    recent interpreters refuse literals of more than
    [sys.get_int_max_str_digits()] digits, which is a setting of the
    interpreter and not of the module. *)
Definition int (s : string) : res Z :=
  let signed :=
    match lstrip s with
    | String "-" s' => option_map Z.opp (digits 0 false s')
    | String "+" s' => digits 0 false s'
    | s' => digits 0 false s'
    end in
  match signed with
  | Some z => Ok z
  | None => Raise ValueError
  end.

(** [str(i)] for an integer. *)
Definition str (i : Z) : string := NilZero.string_of_int (Z.to_int i).

End PyStr.

(** [ticker_to_index]: drop "TICKER", read the rest as an integer, reduce
    it modulo the number of slots. *)
Definition ticker_to_index (ticker_symbol : string) : res Z :=
  let num_part := PyStr.remove "TICKER" ticker_symbol in
  n ← PyStr.int num_part;
  Ok (n mod NUM_TICKERS).

(** ** Orders and books *)

Record order : Type := Order {
  order_type : string;      (* order[0] *)
  ticker_symbol : string;   (* order[1] *)
  quantity : Z;             (* order[2], the only field ever assigned *)
  price : Z                 (* order[3] *)
}.

Definition set_quantity (o : order) (q : Z) : order :=
  {| order_type := order_type o; ticker_symbol := ticker_symbol o;
     quantity := q; price := price o |}.

(** One slot of [order_books]: [[buy_orders, sell_orders]]. *)
Abbreviation book := (list order * list order)%type.
Abbreviation books := (list book).

(** The array built at import time: [NUM_TICKERS] empty slots. *)
Definition order_books : books := replicate (Z.to_nat NUM_TICKERS) ([], []).

(** [order_books[index]] for a non-negative index. *)
Definition get_slot (obs : books) (index : Z) : res book :=
  match obs !! Z.to_nat index with
  | Some b => Ok b
  | None => Raise IndexError
  end.

(** ** [list.sort(key=...)]

    Python's sort is stable: elements with equal keys keep their order.
    The model is insertion sort from the right, where an element is put
    in front of the first element whose key is not smaller. *)
Section Sort.
Context {A : Type} (key : A -> Z).

Fixpoint insert_by (x : A) (l : list A) : list A :=
  match l with
  | [] => [x]
  | y :: l' => if key x <=? key y then x :: l else y :: insert_by x l'
  end.

Fixpoint sort_by (l : list A) : list A :=
  match l with
  | [] => []
  | x :: l' => insert_by x (sort_by l')
  end.
End Sort.

(** The order of the keys, which a sorted list respects. *)
Definition le_key {A : Type} (key : A -> Z) (a b : A) : Prop := key a <= key b.

Definition buy_key (x : order) : Z := - price x.   (* lambda x: -x[3] *)
Definition sell_key (x : order) : Z := price x.    (* lambda x: x[3] *)

(** ** [matchOrder] *)

(** One "Matched:" line: the two orders as they were before the fill and
    the number of units traded. *)
Record trade : Type := Trade {
  trade_buy : order;
  trade_sell : order;
  trade_qty : Z
}.

(** One iteration of the [while] loop of [matchOrder], entered with both
    lists as they are.  [None] is the exit of the loop: the condition
    [buy_orders and sell_orders] fails, or the [else: break] branch is
    taken.  Otherwise the step yields the trade and the two lists after
    the two assignments and the two conditional [pop(0)]. *)
Definition match_step (buy_orders sell_orders : list order)
  : option (trade * list order * list order) :=
  match buy_orders, sell_orders with
  | best_buy :: buy_rest, best_sell :: sell_rest =>
      if price best_buy >=? price best_sell then
        let trade_qty :=
          if quantity best_buy <? quantity best_sell
          then quantity best_buy else quantity best_sell in
        let best_buy' := set_quantity best_buy (quantity best_buy - trade_qty) in
        let best_sell' := set_quantity best_sell (quantity best_sell - trade_qty) in
        let buy_orders' :=
          if quantity best_buy' =? 0 then buy_rest else best_buy' :: buy_rest in
        let sell_orders' :=
          if quantity best_sell' =? 0 then sell_rest else best_sell' :: sell_rest in
        Some (Trade best_buy best_sell trade_qty, buy_orders', sell_orders')
      else None
  | _, _ => None
  end.

(** The loop, bounded by [fuel] iterations; [None] when the bound is
    reached before the loop exits. *)
Fixpoint match_loop (fuel : nat) (buy_orders sell_orders : list order)
  : option (list trade * list order * list order) :=
  match fuel with
  | O => None
  | S fuel' =>
      match match_step buy_orders sell_orders with
      | None => Some ([], buy_orders, sell_orders)
      | Some (t, buy_orders', sell_orders') =>
          match match_loop fuel' buy_orders' sell_orders' with
          | Some (ts, b, s) => Some (t :: ts, b, s)
          | None => None
          end
      end
  end.

(** Every iteration that trades pops an order, so one more iteration than
    there are orders is enough ([match_loop_enough]). *)
Definition match_fuel (buy_orders sell_orders : list order) : nat :=
  S (length buy_orders + length sell_orders).

Arguments match_fuel : simpl never.

Definition matchOrder (ticker_symbol : string) (obs : books)
  : res (books * list trade) :=
  index ← ticker_to_index ticker_symbol;
  '(buy_orders, sell_orders) ← get_slot obs index;
  match match_loop (match_fuel buy_orders sell_orders) buy_orders sell_orders with
  | Some (ts, buy_orders', sell_orders') =>
      Ok (<[Z.to_nat index := (buy_orders', sell_orders')]> obs, ts)
  | None => Hang
  end.

(** ** [addOrder] *)

(** The first half of [addOrder], up to the call of [print_orders]: the
    order is appended to its side, which is then sorted again.  An
    [order_type] other than "Buy" and "Sell" adds nothing. *)
Definition addOrder_insert (order_type ticker_symbol : string)
    (quantity price : Z) (obs : books) : res books :=
  index ← ticker_to_index ticker_symbol;
  let order := Order order_type ticker_symbol quantity price in
  if String.eqb order_type "Buy" then
    '(buy_orders, sell_orders) ← get_slot obs index;
    Ok (<[Z.to_nat index := (sort_by buy_key (buy_orders ++ [order]), sell_orders)]> obs)
  else if String.eqb order_type "Sell" then
    '(buy_orders, sell_orders) ← get_slot obs index;
    Ok (<[Z.to_nat index := (buy_orders, sort_by sell_key (sell_orders ++ [order]))]> obs)
  else Ok obs.

Definition addOrder (order_type ticker_symbol : string)
    (quantity price : Z) (obs : books) : res (books * list trade) :=
  obs' ← addOrder_insert order_type ticker_symbol quantity price obs;
  matchOrder ticker_symbol obs'.

(** ** [worker] *)

Definition lcg (local_seed : Z) : Z :=
  (LCG_MULTIPLIER * local_seed + LCG_INCREMENT) mod LCG_MODULUS.

(** The values one iteration of [worker] derives, and the seed it leaves. *)
Record draws : Type := Draws {
  d_order_type : string;
  d_ticker_index : Z;
  d_quantity : Z;
  d_price : Z;
  d_seed : Z
}.

(** Lines 99 to 113 of the loop body, for a list of [n_tickers] tickers. *)
Definition worker_draws (n_tickers : Z) (local_seed : Z) : res draws :=
  let local_seed := lcg local_seed in
  let order_type := if local_seed <? LCG_MODULUS / 2 then "Buy" else "Sell" in
  let local_seed := lcg local_seed in
  if n_tickers =? 0 then Raise ZeroDivisionError else
  let ticker_index := local_seed mod n_tickers in
  let local_seed := lcg local_seed in
  let quantity := local_seed mod 100 + 1 in
  let local_seed := lcg local_seed in
  let price := local_seed mod 991 + 10 in
  Ok (Draws order_type ticker_index quantity price local_seed).

(** The local variables of the generator. *)
Record worker_state : Type := Worker {
  num_transactions : Z;
  tickers : list string;
  worker_id : Z;
  local_seed : Z;
  txn : Z
}.

(** [worker(num_transactions, tickers, worker_id)], with the two
    assignments in front of the loop done. *)
Definition worker (num_transactions : Z) (tickers : list string)
    (worker_id : Z) : worker_state :=
  Worker num_transactions tickers worker_id (123456789 + worker_id) 0.

(** [next(w)]: one iteration of the loop up to [yield], or [None] for
    [StopIteration]. *)
Definition worker_next (w : worker_state) (obs : books)
  : res (option worker_state * books * list trade) :=
  if txn w <? num_transactions w then
    d ← worker_draws (Z.of_nat (length (tickers w))) (local_seed w);
    ticker_symbol ←
      match tickers w !! Z.to_nat (d_ticker_index d) with
      | Some t => Ok t
      | None => Raise IndexError
      end : res string;
    '(obs1, ts1) ← addOrder (d_order_type d) ticker_symbol (d_quantity d) (d_price d) obs;
    '(obs2, ts2) ← matchOrder ticker_symbol obs1;
    Ok (Some (Worker (num_transactions w) (tickers w) (worker_id w)
                (d_seed d) (txn w + 1)),
        obs2, ts1 ++ ts2)
  else Ok (None, obs, []).

(** ** [simulate_transactions] *)

(** One pass of the inner [while j < len(workers)] loop; the boolean is
    [active]. *)
Fixpoint run_round (workers : list worker_state) (obs : books)
  : res (list worker_state * books * list trade * bool) :=
  match workers with
  | [] => Ok ([], obs, [], false)
  | w :: rest =>
      '(w', obs1, ts1) ← worker_next w obs;
      '(rest', obs2, ts2, active) ← run_round rest obs1;
      match w' with
      | Some w1 => Ok (w1 :: rest', obs2, ts1 ++ ts2, true)
      | None => Ok (w :: rest', obs2, ts1 ++ ts2, active)
      end
  end.

Fixpoint simulate_loop (fuel : nat) (workers : list worker_state) (obs : books)
  : res (books * list trade) :=
  match fuel with
  | O => Hang
  | S fuel' =>
      '(workers', obs1, ts1, active) ← run_round workers obs;
      if active : bool then
        '(obs2, ts2) ← simulate_loop fuel' workers' obs1;
        Ok (obs2, ts1 ++ ts2)
      else Ok (obs1, ts1)
  end.

(** The list [tickers] built at the start of [simulate_transactions]. *)
Definition all_tickers : list string :=
  (fun i => "TICKER" +:+ PyStr.str i) <$> seqZ 0 NUM_TICKERS.

Definition simulate_transactions (num_transactions num_workers : Z)
  : res (books * list trade) :=
  let tickers := all_tickers in
  let workers := (fun worker_id => worker num_transactions tickers worker_id)
                   <$> seqZ 0 num_workers in
  simulate_loop (S (Z.to_nat num_transactions)) workers order_books.

(** ** Sequences of submissions *)

(** The arguments of one call of [addOrder]. *)
Record submission : Type := Submission {
  s_type : string;
  s_ticker : string;
  s_quantity : Z;
  s_price : Z
}.

Definition order_of (c : submission) : order :=
  Order (s_type c) (s_ticker c) (s_quantity c) (s_price c).

Definition submit (c : submission) (obs : books) : res (books * list trade) :=
  addOrder (s_type c) (s_ticker c) (s_quantity c) (s_price c) obs.

(** The calls of [cs] one after the other; an exception ends the run. *)
Fixpoint submit_all (cs : list submission) (obs : books)
  : res (books * list trade) :=
  match cs with
  | [] => Ok (obs, [])
  | c :: cs' =>
      '(obs1, ts1) ← submit c obs;
      '(obs2, ts2) ← submit_all cs' obs1;
      Ok (obs2, ts1 ++ ts2)
  end.

(** ** Predicates on books *)

(** The best bid is below the best ask, or one side is empty. *)
Definition no_cross (b : book) : Prop :=
  match b with
  | (best_buy :: _, best_sell :: _) => price best_buy < price best_sell
  | _ => True
  end.

Definition bids_sorted (l : list order) : Prop :=
  StronglySorted (fun a b => price b <= price a) l.

Definition asks_sorted (l : list order) : Prop :=
  StronglySorted (fun a b => price a <= price b) l.

Definition book_sorted (b : book) : Prop :=
  bids_sorted b.1 /\ asks_sorted b.2.

(** Sum of the quantities of the orders of a list, and of a book. *)
Definition total_quantity (l : list order) : Z :=
  foldr (fun o acc => quantity o + acc) 0 l.

Definition resident_quantity (b : book) : Z :=
  total_quantity b.1 + total_quantity b.2.

(** What a caller is expected to pass: a positive quantity and a price
    that is not negative. *)
Definition valid_order (o : order) : Prop :=
  0 < quantity o /\ 0 <= price o.

Definition book_valid (b : book) : Prop :=
  Forall valid_order b.1 /\ Forall valid_order b.2.

(** The effect of the first half of [addOrder] on the slot of the ticker. *)
Definition book_insert (o : order) (b : book) : book :=
  if String.eqb (order_type o) "Buy" then
    (sort_by buy_key (b.1 ++ [o]), b.2)
  else if String.eqb (order_type o) "Sell" then
    (b.1, sort_by sell_key (b.2 ++ [o]))
  else b.

(** Every order of the list has at least one unit. *)
Definition all_positive (l : list order) : Prop :=
  Forall (fun o => 1 <= quantity o) l.

(** ** Sample states *)

(** A run that fills, partly fills and queues orders of slot 7; the
    ticker TICKER1031 shares that slot. *)
Definition demo_run : list submission :=
  [Submission "Buy" "TICKER7" 10 100; Submission "Sell" "TICKER7" 4 90;
   Submission "Sell" "TICKER7" 10 100; Submission "Buy" "TICKER1031" 5 50;
   Submission "Buy" "TICKER7" 3 100; Submission "Buy" "TICKER7" 8 120].

(** An array whose slot 7 is crossed, as [addOrder] leaves it before it
    calls [matchOrder]. *)
Definition crossed_books : books :=
  <[7%nat := ([Order "Buy" "TICKER7" 10 100], [Order "Sell" "TICKER7" 4 90])]>
    order_books.

(** ** [print_orders] *)

(** What [print_orders] writes between its two rules: for every slot
    that holds an order, the name in the heading "Ticker: TICKER<i>" and
    the two lists.  [n] counts the iterations left of the loop
    [while i < NUM_TICKERS]. *)
Fixpoint print_orders_from (n : nat) (i : Z) (obs : books)
  : res (list (string * list order * list order)) :=
  match n with
  | O => Ok []
  | S n' =>
      '(buy_orders, sell_orders) ← get_slot obs i;
      rest ← print_orders_from n' (i + 1) obs;
      Ok (match buy_orders, sell_orders with
          | [], [] => rest
          | _, _ => ("TICKER" +:+ PyStr.str i, buy_orders, sell_orders) :: rest
          end)
  end.

Definition print_orders (obs : books)
  : res (list (string * list order * list order)) :=
  print_orders_from (Z.to_nat NUM_TICKERS) 0 obs.

(** ** Quantities of a run *)

(** The units resident in all slots. *)
Definition books_quantity (obs : books) : Z :=
  foldr (fun b acc => resident_quantity b + acc) 0 obs.

(** The units of the submissions that [addOrder] inserts, which are those
    of type "Buy" and "Sell". *)
Definition submitted_quantity (cs : list submission) : Z :=
  foldr (fun c acc =>
           if String.eqb (s_type c) "Buy" || String.eqb (s_type c) "Sell"
           then s_quantity c + acc else acc) 0 cs.

Definition traded_quantity (ts : list trade) : Z :=
  foldr (fun t acc => trade_qty t + acc) 0 ts.

Arguments books_quantity : simpl never.
Arguments submitted_quantity : simpl never.
Arguments traded_quantity : simpl never.

(** ** Orders and their slot *)

(** An order of type [ty] whose ticker denotes slot [i]. *)
Definition homed (ty : string) (i : nat) (o : order) : Prop :=
  order_type o = ty /\ ticker_to_index (ticker_symbol o) = Ok (Z.of_nat i).

Definition book_homed (i : nat) (b : book) : Prop :=
  Forall (homed "Buy" i) b.1 /\ Forall (homed "Sell" i) b.2.

(** A trade between a bid and an ask of one slot whose prices meet, for
    the smaller of their two quantities. *)
Definition trade_ok (t : trade) : Prop :=
  order_type (trade_buy t) = "Buy" /\
  order_type (trade_sell t) = "Sell" /\
  ticker_to_index (ticker_symbol (trade_buy t))
    = ticker_to_index (ticker_symbol (trade_sell t)) /\
  price (trade_sell t) <= price (trade_buy t) /\
  trade_qty t = Z.min (quantity (trade_buy t)) (quantity (trade_sell t)).

(** ** The schedule of the simulation *)

(** One iteration of [worker] advances the seed four times. *)
Definition iter4 (s : Z) : Z := lcg (lcg (lcg (lcg s))).






(** ** Further predicates *)

(** The string [s] has no character [c]. *)
Fixpoint lacks (c : ascii) (s : string) : Prop :=
  match s with
  | EmptyString => True
  | String c' s' => c' <> c /\ lacks c s'
  end.

(** Every order is in the slot of its ticker and on the side of its type. *)
Definition books_homed (obs : books) : Prop :=
  forall i b, obs !! i = Some b -> book_homed i b.



(** Every order of [l] is priced below every order of [s]. *)
Definition all_below (l s : list order) : Prop :=
  Forall (fun x => Forall (fun y => price x < price y) s) l.

(** Two asks for slot 7, the later one at the better price. *)
Definition asks_run : list submission :=
  [Submission "Sell" "TICKER7" 4 90; Submission "Sell" "TICKER7" 4 80].

(** * Properties *)

(** ** The stable sort *)

Section SortFacts.
Context {A : Type} (key : A -> Z).

Lemma insert_by_Forall (P : A -> Prop) x l :
  P x -> Forall P l -> Forall P (insert_by key x l).
Proof.
  intros Hx Hl. induction Hl as [|y l Hy Hl IH]; simpl.
  - by constructor.
  - destruct (key x <=? key y); repeat constructor; auto.
Qed.

Lemma sort_by_Forall (P : A -> Prop) l :
  Forall P l -> Forall P (sort_by key l).
Proof.
  induction 1; simpl; [constructor | by apply insert_by_Forall].
Qed.

Lemma insert_by_sorted x l :
  StronglySorted (le_key key) l -> StronglySorted (le_key key) (insert_by key x l).
Proof.
  induction 1 as [|y l Hs IH Hy]; simpl.
  - repeat constructor.
  - destruct (Z.leb_spec (key x) (key y)) as [Hle|Hlt].
    + constructor; [by constructor|].
      constructor; [done|].
      eapply Forall_impl; [exact Hy|]. unfold le_key. intros; simpl in *; lia.
    + constructor; [done|].
      apply insert_by_Forall; [unfold le_key; lia | done].
Qed.

Lemma sort_by_sorted l : StronglySorted (le_key key) (sort_by key l).
Proof.
  induction l; simpl; [constructor | by apply insert_by_sorted].
Qed.

(** An element that is not above any element of the list goes in front. *)
Lemma insert_by_front x l :
  Forall (le_key key x) l -> insert_by key x l = x :: l.
Proof.
  destruct 1 as [|y l Hy _]; simpl; [done|].
  unfold le_key in Hy. destruct (Z.leb_spec (key x) (key y)); [done | lia].
Qed.

(** Sorting again a sorted list with one element appended: the new
    element goes behind every element whose key is not above its own,
    and the elements already there keep their order. *)
Lemma sort_by_snoc o l :
  StronglySorted (le_key key) l ->
  exists l1 l2,
    l = l1 ++ l2 /\
    Forall (fun y => key y <= key o) l1 /\
    Forall (fun y => key o < key y) l2 /\
    sort_by key (l ++ [o]) = l1 ++ o :: l2.
Proof.
  induction 1 as [|x l Hs IH Hx].
  - exists [], []. repeat split; constructor.
  - destruct IH as (l1 & l2 & -> & H1 & H2 & Heq).
    simpl. rewrite Heq.
    apply Forall_app in Hx as [Hx1 Hx2].
    destruct (Z.le_gt_cases (key x) (key o)) as [Hle|Hgt].
    + exists (x :: l1), l2. repeat split; [by constructor | done |].
      apply insert_by_front. apply Forall_app. split; [done|].
      constructor; [exact Hle | done].
    + assert (l1 = []) as ->.
      { destruct l1 as [|y l1]; [done|].
        inversion H1; inversion Hx1; subst. unfold le_key in *. lia. }
      exists [], (x :: l2). simpl in *.
      repeat split; [constructor | constructor; [lia | done] |].
      destruct (Z.leb_spec (key x) (key o)); [lia|].
      by rewrite insert_by_front.
Qed.
End SortFacts.

Lemma StronglySorted_weaken {A} (R1 R2 : A -> A -> Prop) l :
  (forall a b, R1 a b -> R2 a b) -> StronglySorted R1 l -> StronglySorted R2 l.
Proof.
  intros HR. induction 1 as [|x l Hs IH Hx]; constructor; [done|].
  eapply Forall_impl; [exact Hx | auto].
Qed.

Lemma sort_buy_sorted l : bids_sorted (sort_by buy_key l).
Proof.
  eapply StronglySorted_weaken; [| apply (sort_by_sorted buy_key)].
  unfold le_key, buy_key. intros a b H. lia.
Qed.

Lemma sort_sell_sorted l : asks_sorted (sort_by sell_key l).
Proof. apply (sort_by_sorted sell_key). Qed.

(** ** The matching loop *)

Lemma trade_qty_min (qb qs : Z) :
  (if qb <? qs then qb else qs) = Z.min qb qs.
Proof. destruct (Z.ltb_spec qb qs); lia. Qed.

(** What an iteration that trades does, read off the loop body. *)
Lemma match_step_Some b s t b' s' :
  match_step b s = Some (t, b', s') ->
  exists best_buy buy_rest best_sell sell_rest,
    b = best_buy :: buy_rest /\ s = best_sell :: sell_rest /\
    price best_sell <= price best_buy /\
    t = Trade best_buy best_sell (Z.min (quantity best_buy) (quantity best_sell)) /\
    b' = (if quantity best_buy - trade_qty t =? 0 then buy_rest
          else set_quantity best_buy (quantity best_buy - trade_qty t) :: buy_rest) /\
    s' = (if quantity best_sell - trade_qty t =? 0 then sell_rest
          else set_quantity best_sell (quantity best_sell - trade_qty t) :: sell_rest).
Proof.
  unfold match_step. destruct b as [|bb br]; [done|]. destruct s as [|sb sr]; [done|].
  destruct (Z.geb_spec (price bb) (price sb)) as [Hge|]; [|done].
  rewrite trade_qty_min. intros [= <- <- <-].
  exists bb, br, sb, sr. simpl. repeat split; [lia..].
Qed.

Lemma match_step_None b s :
  match_step b s = None -> no_cross (b, s).
Proof.
  unfold match_step, no_cross. destruct b as [|bb br]; [done|]. destruct s as [|sb sr]; [done|].
  destruct (Z.geb_spec (price bb) (price sb)); [done | intros _; lia].
Qed.

Lemma no_cross_match_step b s :
  no_cross (b, s) -> match_step b s = None.
Proof.
  unfold match_step, no_cross. destruct b as [|bb br]; [done|]. destruct s as [|sb sr]; [done|].
  destruct (Z.geb_spec (price bb) (price sb)); [lia | done].
Qed.

(** An iteration that trades pops at least one order. *)
Lemma match_step_pops b s t b' s' :
  match_step b s = Some (t, b', s') ->
  (length b' + length s' < length b + length s)%nat.
Proof.
  intros H. apply match_step_Some in H
    as (bb & br & sb & sr & -> & -> & _ & -> & -> & ->). simpl.
  destruct (Z.eqb_spec (quantity bb - Z.min (quantity bb) (quantity sb)) 0);
    destruct (Z.eqb_spec (quantity sb - Z.min (quantity bb) (quantity sb)) 0);
    simpl; lia.
Qed.

Lemma match_loop_enough fuel b s :
  (length b + length s < fuel)%nat ->
  exists ts b' s', match_loop fuel b s = Some (ts, b', s').
Proof.
  revert b s. induction fuel as [|fuel IH]; intros b s Hlt; [lia|]. simpl.
  destruct (match_step b s) as [[[t b1] s1]|] eqn:Hstep; [|by eauto].
  apply match_step_pops in Hstep.
  destruct (IH b1 s1) as (ts & b' & s' & ->); [lia | by eauto].
Qed.

(** When the loop is left, no further iteration would trade. *)
Lemma match_loop_settled fuel b s ts b' s' :
  match_loop fuel b s = Some (ts, b', s') -> match_step b' s' = None.
Proof.
  revert b s ts. induction fuel as [|fuel IH]; intros b s ts; [done|]. simpl.
  destruct (match_step b s) as [[[t b1] s1]|] eqn:Hstep.
  - destruct (match_loop fuel b1 s1) as [[[ts1 b2] s2]|] eqn:Hloop; [|done].
    intros [= <- <- <-]. eauto.
  - by intros [= <- <- <-].
Qed.

(** A property of the two lists kept by every trading iteration is kept
    by the loop. *)
Lemma match_loop_preserves (P : list order -> list order -> Prop) :
  (forall b s t b' s', P b s -> match_step b s = Some (t, b', s') -> P b' s') ->
  forall fuel b s ts b' s',
    P b s -> match_loop fuel b s = Some (ts, b', s') -> P b' s'.
Proof.
  intros Hstep. induction fuel as [|fuel IH]; intros b s ts b' s' HP; [done|]. simpl.
  destruct (match_step b s) as [[[t b1] s1]|] eqn:Hs.
  - destruct (match_loop fuel b1 s1) as [[[ts1 b2] s2]|] eqn:Hloop; [|done].
    intros [= <- <- <-]. eapply IH; [|exact Hloop]. eauto.
  - by intros [= <- <- <-].
Qed.

Lemma match_loop_no_trade fuel b s :
  match_step b s = None -> match_loop (S fuel) b s = Some ([], b, s).
Proof. intros H. simpl. by rewrite H. Qed.

(** ** [matchOrder] and [addOrder] on the array *)

Lemma ticker_to_index_range sym index :
  ticker_to_index sym = Ok index -> 0 <= index < NUM_TICKERS.
Proof.
  unfold ticker_to_index. destruct (PyStr.int _) as [n| |]; simpl; [|done..].
  intros [= <-]. apply Z.mod_pos_bound. done.
Qed.

Lemma matchOrder_Ok sym obs obs' ts :
  matchOrder sym obs = Ok (obs', ts) ->
  exists index b s b' s',
    ticker_to_index sym = Ok index /\
    obs !! Z.to_nat index = Some (b, s) /\
    match_loop (match_fuel b s) b s = Some (ts, b', s') /\
    obs' = <[Z.to_nat index := (b', s')]> obs.
Proof.
  unfold matchOrder, get_slot.
  destruct (ticker_to_index sym) as [index| |]; cbn; [|done..].
  destruct (obs !! Z.to_nat index) as [[b s]|] eqn:Hget; cbn; [|done].
  destruct (match_loop (match_fuel b s) b s) as [[[ts1 b'] s']|] eqn:Hloop; [|done].
  intros [= <- <-]. by exists index, b, s, b', s'.
Qed.

Lemma addOrder_insert_Ok ty sym q p obs obs1 index b :
  addOrder_insert ty sym q p obs = Ok obs1 ->
  ticker_to_index sym = Ok index ->
  obs !! Z.to_nat index = Some b ->
  obs1 = <[Z.to_nat index := book_insert (Order ty sym q p) b]> obs.
Proof.
  unfold addOrder_insert, book_insert, get_slot. intros H Hidx Hget.
  rewrite Hidx in H. simpl in H. rewrite Hget in H. simpl in *.
  destruct b as [bs ss]. simpl in *.
  destruct (String.eqb ty "Buy"); [by injection H as <-|].
  destruct (String.eqb ty "Sell"); [by injection H as <-|].
  injection H as <-. symmetry. by apply list_insert_id.
Qed.

(** A call of [addOrder] that returns has rewritten exactly one slot:
    the order was inserted there and the loop has run to its exit. *)
Lemma addOrder_Ok ty sym q p obs obs' ts :
  addOrder ty sym q p obs = Ok (obs', ts) ->
  exists index b b' s' fuel,
    ticker_to_index sym = Ok index /\
    obs !! Z.to_nat index = Some b /\
    match_loop fuel (book_insert (Order ty sym q p) b).1
                    (book_insert (Order ty sym q p) b).2 = Some (ts, b', s') /\
    obs' = <[Z.to_nat index := (b', s')]> obs.
Proof.
  unfold addOrder. destruct (addOrder_insert ty sym q p obs) as [obs1| |] eqn:Hins;
    simpl; [|done..].
  intros H. apply matchOrder_Ok in H as (index & b1 & s1 & b' & s' & Hidx & Hget1 & Hloop & ->).
  assert (exists b, obs !! Z.to_nat index = Some b) as [b Hget].
  { apply lookup_lt_is_Some. apply lookup_lt_Some in Hget1.
    revert Hins Hget1. unfold addOrder_insert, get_slot. rewrite Hidx. cbn.
    destruct (String.eqb ty "Buy").
    { destruct (obs !! Z.to_nat index) as [[? ?]|]; cbn; [|done].
      intros [= <-]. by rewrite length_insert. }
    destruct (String.eqb ty "Sell").
    { destruct (obs !! Z.to_nat index) as [[? ?]|]; cbn; [|done].
      intros [= <-]. by rewrite length_insert. }
    by intros [= <-]. }
  pose proof (addOrder_insert_Ok _ _ _ _ _ _ _ _ Hins Hidx Hget) as ->.
  rewrite list_lookup_insert_eq in Hget1 by (by eapply lookup_lt_Some).
  injection Hget1 as Hb.
  exists index, b, b', s', (match_fuel b1 s1).
  rewrite Hb. simpl. repeat split; [done.. |].
  by rewrite list_insert_insert_eq.
Qed.

(** Conversely, the result of [addOrder] on a slot that exists. *)
Lemma addOrder_run ty sym q p (obs : books) index b ts b' s' :
  ticker_to_index sym = Ok index ->
  obs !! Z.to_nat index = Some b ->
  match_loop (match_fuel (book_insert (Order ty sym q p) b).1
                         (book_insert (Order ty sym q p) b).2)
             (book_insert (Order ty sym q p) b).1
             (book_insert (Order ty sym q p) b).2 = Some (ts, b', s') ->
  addOrder ty sym q p obs = Ok (<[Z.to_nat index := (b', s')]> obs, ts).
Proof.
  intros Hidx Hget Hloop.
  assert (addOrder_insert ty sym q p obs
          = Ok (<[Z.to_nat index := book_insert (Order ty sym q p) b]> obs)) as Hins.
  { unfold addOrder_insert, book_insert, get_slot. rewrite Hidx. cbn.
    rewrite Hget. destruct b as [bs ss]. cbn.
    destruct (String.eqb ty "Buy"); [done|].
    destruct (String.eqb ty "Sell"); [done|].
    by rewrite list_insert_id. }
  unfold addOrder. rewrite Hins. cbn.
  unfold matchOrder, get_slot. rewrite Hidx. cbn.
  rewrite list_lookup_insert_eq by (by eapply lookup_lt_Some).
  destruct (book_insert (Order ty sym q p) b) as [b1 s1]. cbn in *.
  rewrite Hloop. by rewrite list_insert_insert_eq.
Qed.

Lemma ticker_to_index_never_hangs sym : ticker_to_index sym <> Hang.
Proof.
  unfold ticker_to_index, PyStr.int.
  by destruct (match PyStr.lstrip _ with EmptyString => _ | _ => _ end).
Qed.

(** The bound of the model is never reached. *)
Lemma matchOrder_never_hangs sym (obs : books) : matchOrder sym obs <> Hang.
Proof.
  unfold matchOrder, get_slot. pose proof (ticker_to_index_never_hangs sym).
  destruct (ticker_to_index sym) as [index| |]; cbn; [|done..].
  destruct (obs !! Z.to_nat index) as [[b s]|]; cbn; [|done].
  destruct (match_loop_enough (match_fuel b s) b s) as (ts & b' & s' & ->);
    [unfold match_fuel; lia | done].
Qed.

Lemma addOrder_never_hangs ty sym q p (obs : books) :
  addOrder ty sym q p obs <> Hang.
Proof.
  unfold addOrder. destruct (addOrder_insert ty sym q p obs) as [obs1| |] eqn:Hins; cbn.
  - apply matchOrder_never_hangs.
  - done.
  - revert Hins. unfold addOrder_insert, get_slot.
    pose proof (ticker_to_index_never_hangs sym).
    destruct (ticker_to_index sym) as [index| |]; cbn; [|done..].
    destruct (String.eqb ty "Buy");
      [destruct (obs !! Z.to_nat index) as [[? ?]|]; by cbn|].
    destruct (String.eqb ty "Sell");
      [destruct (obs !! Z.to_nat index) as [[? ?]|]; by cbn|].
    done.
Qed.

(** On an array with all its slots, [addOrder] returns as soon as the
    ticker symbol denotes a slot, whatever the other arguments. *)
Lemma addOrder_returns ty sym q p (obs : books) index :
  Z.of_nat (length obs) = NUM_TICKERS ->
  ticker_to_index sym = Ok index ->
  exists obs' ts, addOrder ty sym q p obs = Ok (obs', ts).
Proof.
  intros Hlen Hidx. pose proof (ticker_to_index_range _ _ Hidx) as Hr.
  destruct (lookup_lt_is_Some_2 obs (Z.to_nat index)) as [b Hget]; [lia|].
  destruct (match_loop_enough
              (match_fuel (book_insert (Order ty sym q p) b).1
                          (book_insert (Order ty sym q p) b).2)
              (book_insert (Order ty sym q p) b).1
              (book_insert (Order ty sym q p) b).2)
    as (ts & b' & s' & Hloop); [unfold match_fuel; lia|].
  eexists _, _. by eapply addOrder_run.
Qed.

(** ** Invariants of a run *)

(** A property of single slots that insertion of an order of the kind [Q]
    and every trading iteration keep holds in all slots after the call. *)
Lemma addOrder_preserves (P : book -> Prop) ty sym q p (obs obs' : books) ts :
  (forall b, P b -> P (book_insert (Order ty sym q p) b)) ->
  (forall b s t b' s', P (b, s) -> match_step b s = Some (t, b', s') -> P (b', s')) ->
  Forall P obs ->
  addOrder ty sym q p obs = Ok (obs', ts) ->
  Forall P obs'.
Proof.
  intros Hins Hstep Hall H.
  apply addOrder_Ok in H as (index & b & b' & s' & fuel & _ & Hget & Hloop & ->).
  apply Forall_insert; [done|].
  eapply (match_loop_preserves (fun b s => P (b, s))); [exact Hstep | | exact Hloop].
  rewrite <- surjective_pairing. apply Hins.
  eapply Forall_lookup_1; [exact Hall | exact Hget].
Qed.

Lemma submit_all_preserves (Q : books -> Prop) (R : submission -> Prop) :
  (forall c obs obs' ts, R c -> Q obs -> submit c obs = Ok (obs', ts) -> Q obs') ->
  forall cs obs obs' ts,
    Forall R cs -> Q obs -> submit_all cs obs = Ok (obs', ts) -> Q obs'.
Proof.
  intros Hstep cs. induction cs as [|c cs IH]; intros obs obs' ts HR HQ; simpl.
  - by intros [= <- <-].
  - inversion HR as [|? ? Hc Hcs]; subst.
    destruct (submit c obs) as [[obs1 ts1]| |] eqn:Hsub; cbn; [|done..].
    destruct (submit_all cs obs1) as [[obs2 ts2]| |] eqn:Hrest; cbn; [|done..].
    intros [= <- <-]. eapply IH; [done | | exact Hrest]. eauto.
Qed.

Lemma addOrder_length ty sym q p (obs obs' : books) ts :
  addOrder ty sym q p obs = Ok (obs', ts) -> length obs' = length obs.
Proof.
  intros H. apply addOrder_Ok in H as (? & ? & ? & ? & ? & _ & _ & _ & ->).
  apply length_insert.
Qed.

Lemma submit_all_length cs (obs obs' : books) ts :
  submit_all cs obs = Ok (obs', ts) -> length obs' = length obs.
Proof.
  intros H.
  eapply (submit_all_preserves (fun o => length o = length obs) (fun _ => True));
    [| | done | exact H].
  - intros c o o' t _ Hl Hs. apply addOrder_length in Hs. congruence.
  - apply Forall_true. done.
Qed.

Lemma order_books_length : Z.of_nat (length order_books) = NUM_TICKERS.
Proof. unfold order_books. rewrite length_replicate. done. Qed.

Lemma get_slot_in_range (obs : books) i :
  Z.of_nat (length obs) = NUM_TICKERS -> 0 <= i < NUM_TICKERS ->
  exists b, get_slot obs i = Ok b /\ obs !! Z.to_nat i = Some b.
Proof.
  intros Hlen Hi. unfold get_slot.
  destruct (lookup_lt_is_Some_2 obs (Z.to_nat i)) as [b ->]; [lia | by eauto].
Qed.

(** ** Quantities *)

Lemma total_quantity_cons o l :
  total_quantity (o :: l) = quantity o + total_quantity l.
Proof. done. Qed.

(** A trading iteration takes [trade_qty] units from each side; an order
    that is popped had no units left. *)
Lemma match_step_quantity b s t b' s' :
  match_step b s = Some (t, b', s') ->
  total_quantity b' = total_quantity b - trade_qty t /\
  total_quantity s' = total_quantity s - trade_qty t.
Proof.
  intros H. apply match_step_Some in H
    as (bb & br & sb & sr & -> & -> & _ & -> & -> & ->). cbn [trade_qty].
  rewrite !total_quantity_cons.
  split.
  - destruct (Z.eqb_spec (quantity bb - Z.min (quantity bb) (quantity sb)) 0);
      [lia | rewrite total_quantity_cons; simpl; lia].
  - destruct (Z.eqb_spec (quantity sb - Z.min (quantity bb) (quantity sb)) 0);
      [lia | rewrite total_quantity_cons; simpl; lia].
Qed.

Lemma all_positive_total l : all_positive l -> 0 <= total_quantity l.
Proof.
  induction 1 as [|o l Ho _ IH]; [done|]. rewrite total_quantity_cons. lia.
Qed.

Lemma match_step_positive b s t b' s' :
  all_positive b -> all_positive s ->
  match_step b s = Some (t, b', s') ->
  1 <= trade_qty t /\ all_positive b' /\ all_positive s'.
Proof.
  intros Hb Hs H. apply match_step_Some in H
    as (bb & br & sb & sr & -> & -> & _ & -> & -> & ->). cbn [trade_qty].
  inversion Hb as [|? ? Hbb Hbr]; inversion Hs as [|? ? Hsb Hsr]; subst.
  split; [lia|]. split.
  - destruct (Z.eqb_spec (quantity bb - Z.min (quantity bb) (quantity sb)) 0);
      [done|]. constructor; [simpl; lia | done].
  - destruct (Z.eqb_spec (quantity sb - Z.min (quantity bb) (quantity sb)) 0);
      [done|]. constructor; [simpl; lia | done].
Qed.

(** With positive quantities the resident quantity bounds the number of
    iterations. *)
Lemma match_loop_enough_quantity fuel b s :
  all_positive b -> all_positive s ->
  (Z.to_nat (resident_quantity (b, s)) < fuel)%nat ->
  exists ts b' s', match_loop fuel b s = Some (ts, b', s').
Proof.
  revert b s. induction fuel as [|fuel IH]; intros b s Hb Hs Hlt; [lia|]. simpl.
  destruct (match_step b s) as [[[t b1] s1]|] eqn:Hstep; [|by eauto].
  destruct (match_step_positive _ _ _ _ _ Hb Hs Hstep) as (Ht & Hb1 & Hs1).
  destruct (match_step_quantity _ _ _ _ _ Hstep) as [Hqb Hqs].
  pose proof (all_positive_total _ Hb1). pose proof (all_positive_total _ Hs1).
  destruct (IH b1 s1) as (ts & b' & s' & ->); [done.. | | by eauto].
  unfold resident_quantity in *. simpl in *. lia.
Qed.

(** * The claims *)

(** C1.  After any sequence of [addOrder] calls on the initial array that
    all return, every one of the [NUM_TICKERS] slots holds a book in
    which one side is empty or the price of the first bid is strictly
    below the price of the first ask. *)
Theorem no_cross_after_submissions cs (obs : books) ts :
  submit_all cs order_books = Ok (obs, ts) ->
  forall index, 0 <= index < NUM_TICKERS ->
    exists b, get_slot obs index = Ok b /\ no_cross b.
Proof.
  intros Hrun index Hidx.
  destruct (get_slot_in_range obs index) as (b & Hb & Hget); [|done|].
  { apply submit_all_length in Hrun. rewrite Hrun. apply order_books_length. }
  exists b. split; [done|].
  assert (Forall no_cross obs) as Hall.
  { eapply (submit_all_preserves (Forall no_cross) (fun _ => True));
      [| by apply Forall_true | | exact Hrun].
    - intros c o o' t _ Ho Hs. unfold submit in Hs.
      apply addOrder_Ok in Hs as (i & b0 & b' & s' & fuel & _ & _ & Hloop & ->).
      apply Forall_insert; [done|].
      apply match_step_None. eapply match_loop_settled, Hloop.
    - apply Forall_replicate. done. }
  eapply Forall_lookup_1; [exact Hall | exact Hget].
Qed.

(** C2.  An iteration entered with a best bid whose price is at least the
    price of the best ask trades the minimum of the two quantities; each
    of the two orders either stays in front of its side with its quantity
    reduced by that amount and its other fields unchanged, or is removed,
    and it is removed exactly when the reduced quantity is 0; the units
    resident on each side drop by the traded quantity, so that the sum of
    the two quantities before equals the sum after plus twice the trade. *)
Theorem match_step_fill best_buy buy_rest best_sell sell_rest :
  price best_buy >= price best_sell ->
  let q := Z.min (quantity best_buy) (quantity best_sell) in
  exists b' s',
    match_step (best_buy :: buy_rest) (best_sell :: sell_rest)
      = Some (Trade best_buy best_sell q, b', s') /\
    (quantity best_buy - q = 0 -> b' = buy_rest) /\
    (quantity best_buy - q <> 0 ->
       b' = Order (order_type best_buy) (ticker_symbol best_buy)
              (quantity best_buy - q) (price best_buy) :: buy_rest) /\
    (quantity best_sell - q = 0 -> s' = sell_rest) /\
    (quantity best_sell - q <> 0 ->
       s' = Order (order_type best_sell) (ticker_symbol best_sell)
              (quantity best_sell - q) (price best_sell) :: sell_rest) /\
    total_quantity (best_buy :: buy_rest) + total_quantity (best_sell :: sell_rest)
      = total_quantity b' + total_quantity s' + 2 * q.
Proof.
  intros Hge q.
  destruct (match_step (best_buy :: buy_rest) (best_sell :: sell_rest))
    as [[[t b'] s']|] eqn:Hstep.
  2: { apply match_step_None in Hstep. simpl in Hstep. lia. }
  pose proof (match_step_quantity _ _ _ _ _ Hstep) as [Hqb Hqs].
  apply match_step_Some in Hstep
    as (bb & br & sb & sr & [= <- <-] & [= <- <-] & _ & -> & -> & ->).
  cbn [trade_qty] in *. fold q in Hqb, Hqs |- *.
  eexists _, _. split; [reflexivity|].
  repeat split.
  - intros ->. done.
  - intros Hne. by destruct (Z.eqb_spec (quantity best_buy - q) 0).
  - intros ->. done.
  - intros Hne. by destruct (Z.eqb_spec (quantity best_sell - q) 0).
  - lia.
Qed.

Lemma match_step_fill_witness :
  exists b' s',
    match_step [Order "Buy" "TICKER7" 10 100] [Order "Sell" "TICKER7" 4 90]
      = Some (Trade (Order "Buy" "TICKER7" 10 100) (Order "Sell" "TICKER7" 4 90) 4,
              b', s') /\
    b' = [Order "Buy" "TICKER7" 6 100] /\ s' = [].
Proof.
  destruct (match_step_fill (Order "Buy" "TICKER7" 10 100) []
              (Order "Sell" "TICKER7" 4 90) [])
    as (b' & s' & Hstep & _ & Hb & Hs & _); [simpl; lia|].
  exists b', s'. split; [exact Hstep|].
  split; [apply Hb | apply Hs]; vm_compute; congruence.
Defined.

(** Orders of equal quantity leave together. *)
Example match_step_both_removed :
  match_step [Order "Buy" "TICKER7" 5 100] [Order "Sell" "TICKER7" 5 90]
  = Some (Trade (Order "Buy" "TICKER7" 5 100) (Order "Sell" "TICKER7" 5 90) 5,
          [], []).
Proof. reflexivity. Qed.

(** C8.  In a book whose resident orders all have a quantity of at least
    1, an iteration that trades has a trade quantity of at least 1, takes
    that quantity from each side (so the resident quantity of the book
    drops by twice the trade quantity, which is at least the trade
    quantity), and leaves only orders with a quantity of at least 1; an
    iteration that does not trade leaves the loop; and the loop stops
    within as many iterations as there are resident units, and within the
    bound [matchOrder] runs it with. *)
Theorem match_loop_terminates b s :
  all_positive b -> all_positive s ->
  (forall t b' s', match_step b s = Some (t, b', s') ->
     1 <= trade_qty t /\
     resident_quantity (b', s') = resident_quantity (b, s) - 2 * trade_qty t /\
     resident_quantity (b', s') + trade_qty t <= resident_quantity (b, s) /\
     resident_quantity (b', s') < resident_quantity (b, s) /\
     all_positive b' /\ all_positive s') /\
  (match_step b s = None ->
     forall fuel, match_loop (S fuel) b s = Some ([], b, s)) /\
  (exists ts b' s',
     match_loop (S (Z.to_nat (resident_quantity (b, s)))) b s = Some (ts, b', s') /\
     match_loop (match_fuel b s) b s = Some (ts, b', s') /\
     match_step b' s' = None).
Proof.
  intros Hb Hs. split; [|split].
  - intros t b' s' Hstep.
    destruct (match_step_positive _ _ _ _ _ Hb Hs Hstep) as (Ht & Hb' & Hs').
    destruct (match_step_quantity _ _ _ _ _ Hstep) as [Hqb Hqs].
    unfold resident_quantity. simpl. repeat split; [lia.. | done | done].
  - intros Hnone fuel. by apply match_loop_no_trade.
  - destruct (match_loop_enough_quantity (S (Z.to_nat (resident_quantity (b, s)))) b s)
      as (ts & b' & s' & Hq); [done | done | lia |].
    destruct (match_loop_enough (match_fuel b s) b s)
      as (ts2 & b2 & s2 & Hf); [unfold match_fuel; lia|].
    exists ts, b', s'. split; [done|]. split; [|by eapply match_loop_settled].
    rewrite Hf. clear Hb Hs.
    revert Hq Hf. generalize (S (Z.to_nat (resident_quantity (b, s)))) as n.
    generalize (match_fuel b s) as m. clear.
    intros m n. revert m b s ts b' s' ts2 b2 s2.
    induction n as [|n IH]; intros m b s ts b' s' ts2 b2 s2; [done|].
    destruct m as [|m]; [done|]. simpl.
    destruct (match_step b s) as [[[t b1] s1]|]; [|congruence].
    destruct (match_loop n b1 s1) as [[[tsn bn] sn]|] eqn:Hn; [|done].
    destruct (match_loop m b1 s1) as [[[tsm bm] sm]|] eqn:Hm; [|done].
    specialize (IH _ _ _ _ _ _ _ _ _ Hn Hm).
    intros [= <- <- <-] [= <- <- <-]. congruence.
Qed.

Lemma match_loop_terminates_witness :
  exists ts b' s',
    match_loop (match_fuel [Order "Buy" "TICKER7" 6 100]
                           [Order "Sell" "TICKER7" 10 100])
      [Order "Buy" "TICKER7" 6 100] [Order "Sell" "TICKER7" 10 100]
      = Some (ts, b', s') /\
    match_step b' s' = None.
Proof.
  destruct (match_loop_terminates [Order "Buy" "TICKER7" 6 100]
              [Order "Sell" "TICKER7" 10 100])
    as (_ & _ & ts & b' & s' & _ & Hloop & Hend).
  - repeat constructor. simpl. lia.
  - repeat constructor. simpl. lia.
  - by exists ts, b', s'.
Defined.

(** A slot on which the loop would not trade is left as it is. *)
Lemma matchOrder_settled sym (obs : books) index b s :
  ticker_to_index sym = Ok index ->
  obs !! Z.to_nat index = Some (b, s) ->
  match_step b s = None ->
  matchOrder sym obs = Ok (obs, []).
Proof.
  intros Hidx Hget Hnone. unfold matchOrder, get_slot.
  rewrite Hidx. cbn. rewrite Hget. cbn.
  unfold match_fuel. rewrite match_loop_no_trade by done.
  by rewrite list_insert_id.
Qed.

(** C10.  When [matchOrder] returns, a second call for the same ticker
    returns the same array and reports no trade; the same holds for the
    call of [matchOrder] that [worker] makes right after [addOrder]. *)
Theorem matchOrder_idempotent sym (obs obs1 : books) ts :
  matchOrder sym obs = Ok (obs1, ts) \/
  (exists ty q p, addOrder ty sym q p obs = Ok (obs1, ts)) ->
  matchOrder sym obs1 = Ok (obs1, []).
Proof.
  assert (forall o, matchOrder sym o = Ok (obs1, ts) ->
                    matchOrder sym obs1 = Ok (obs1, [])) as Hmatch.
  { intros o H.
    apply matchOrder_Ok in H as (index & b & s & b' & s' & Hidx & Hget & Hloop & ->).
    eapply matchOrder_settled; [exact Hidx | | by eapply match_loop_settled].
    apply list_lookup_insert_eq. by eapply lookup_lt_Some. }
  intros [H | (ty & q & p & H)]; [by eapply Hmatch|].
  unfold addOrder in H.
  destruct (addOrder_insert ty sym q p obs) as [o| |]; cbn in H; [|done..].
  by eapply Hmatch.
Qed.

(** C9.  On a slot that is empty, the three submissions Buy 10 at 100,
    Sell 4 at 90 and Sell 10 at 100 for its ticker give: no trade and the
    bid 10 at 100; then one trade of 4 units, the bid reduced to 6 at 100
    and no ask; then one trade of 6 units, no bid and the ask 4 at 100. *)
Theorem three_submissions sym index (obs : books) :
  ticker_to_index sym = Ok index ->
  obs !! Z.to_nat index = Some ([], []) ->
  exists obs1 obs2 obs3 : books,
    addOrder "Buy" sym 10 100 obs = Ok (obs1, []) /\
    obs1 !! Z.to_nat index = Some ([Order "Buy" sym 10 100], []) /\
    addOrder "Sell" sym 4 90 obs1
      = Ok (obs2, [Trade (Order "Buy" sym 10 100) (Order "Sell" sym 4 90) 4]) /\
    obs2 !! Z.to_nat index = Some ([Order "Buy" sym 6 100], []) /\
    addOrder "Sell" sym 10 100 obs2
      = Ok (obs3, [Trade (Order "Buy" sym 6 100) (Order "Sell" sym 10 100) 6]) /\
    obs3 !! Z.to_nat index = Some ([], [Order "Sell" sym 4 100]).
Proof.
  intros Hidx Hget. pose proof (lookup_lt_Some _ _ _ Hget) as Hlt.
  set (i := Z.to_nat index) in *.
  exists (<[i := ([Order "Buy" sym 10 100], [])]> obs),
         (<[i := ([Order "Buy" sym 6 100], [])]> obs),
         (<[i := ([], [Order "Sell" sym 4 100])]> obs).
  assert (forall x : book, (<[i := x]> obs) !! i = Some x) as Hlook
    by (intros x; by apply list_lookup_insert_eq).
  repeat split; [| by apply Hlook | | by apply Hlook | | by apply Hlook].
  - by apply (addOrder_run _ _ _ _ _ _ _ _ _ _ Hidx Hget).
  - rewrite <- (list_insert_insert_eq obs i ([Order "Buy" sym 6 100], [])
                  ([Order "Buy" sym 10 100], [])).
    by apply (addOrder_run _ _ _ _ _ _ _ _ _ _ Hidx (Hlook _)).
  - rewrite <- (list_insert_insert_eq obs i ([], [Order "Sell" sym 4 100])
                  ([Order "Buy" sym 6 100], [])).
    by apply (addOrder_run _ _ _ _ _ _ _ _ _ _ Hidx (Hlook _)).
Qed.

Lemma three_submissions_witness :
  exists obs1 obs2 obs3 : books,
    addOrder "Buy" "TICKER7" 10 100 order_books = Ok (obs1, []) /\
    addOrder "Sell" "TICKER7" 4 90 obs1
      = Ok (obs2, [Trade (Order "Buy" "TICKER7" 10 100)
                         (Order "Sell" "TICKER7" 4 90) 4]) /\
    addOrder "Sell" "TICKER7" 10 100 obs2
      = Ok (obs3, [Trade (Order "Buy" "TICKER7" 6 100)
                         (Order "Sell" "TICKER7" 10 100) 6]) /\
    obs3 !! 7%nat = Some ([], [Order "Sell" "TICKER7" 4 100]).
Proof.
  destruct (three_submissions "TICKER7" 7 order_books)
    as (obs1 & obs2 & obs3 & H1 & _ & H2 & _ & H3 & H4);
    [reflexivity | reflexivity |].
  by exists obs1, obs2, obs3.
Defined.

Lemma no_cross_after_submissions_witness :
  exists (obs : books) ts,
    submit_all demo_run order_books = Ok (obs, ts) /\
    exists b, get_slot obs 7 = Ok b /\ no_cross b.
Proof.
  destruct (submit_all demo_run order_books) as [[obs ts]| |] eqn:Hrun;
    [| vm_compute in Hrun; discriminate Hrun ..].
  exists obs, ts. split; [reflexivity|].
  apply (no_cross_after_submissions demo_run obs ts Hrun 7). done.
Defined.

Lemma matchOrder_idempotent_witness :
  exists (obs1 : books) ts,
    matchOrder "TICKER7" crossed_books = Ok (obs1, ts) /\
    matchOrder "TICKER7" obs1 = Ok (obs1, []).
Proof.
  destruct (matchOrder "TICKER7" crossed_books) as [[obs1 ts]| |] eqn:Hrun;
    [| vm_compute in Hrun; discriminate Hrun ..].
  exists obs1, ts. split; [reflexivity|].
  apply (matchOrder_idempotent "TICKER7" crossed_books obs1 ts). by left.
Defined.

(** ** Sortedness and time priority *)

Lemma book_insert_sorted o b : book_sorted b -> book_sorted (book_insert o b).
Proof.
  intros [Hb Hs]. unfold book_insert.
  destruct (String.eqb (order_type o) "Buy");
    [split; [apply sort_buy_sorted | done]|].
  destruct (String.eqb (order_type o) "Sell");
    [split; [done | apply sort_sell_sorted]|].
  by split.
Qed.

Lemma sorted_front_update (R : Z -> Z -> Prop) o q l :
  StronglySorted (fun a b => R (price a) (price b)) (o :: l) ->
  StronglySorted (fun a b => R (price a) (price b)) (set_quantity o q :: l).
Proof. inversion 1; subst. by constructor. Qed.

Lemma sorted_tail {A} (R : A -> A -> Prop) o l :
  StronglySorted R (o :: l) -> StronglySorted R l.
Proof. by inversion 1. Qed.

Lemma match_step_sorted b s t b' s' :
  book_sorted (b, s) -> match_step b s = Some (t, b', s') -> book_sorted (b', s').
Proof.
  intros [Hb Hs] H. apply match_step_Some in H
    as (bb & br & sb & sr & -> & -> & _ & -> & -> & ->).
  unfold book_sorted, bids_sorted, asks_sorted in *. simpl in *. split.
  - destruct (_ =? 0); [by eapply sorted_tail|].
    by apply (sorted_front_update (fun x y => y <= x)).
  - destruct (_ =? 0); [by eapply sorted_tail|].
    by apply (sorted_front_update (fun x y => x <= y)).
Qed.

Lemma submit_all_sorted cs (obs : books) ts :
  submit_all cs order_books = Ok (obs, ts) -> Forall book_sorted obs.
Proof.
  intros Hrun.
  eapply (submit_all_preserves (Forall book_sorted) (fun _ => True));
    [| by apply Forall_true | | exact Hrun].
  - intros c o o' t _ Ho Hs. unfold submit in Hs.
    eapply addOrder_preserves; [| | exact Ho | exact Hs].
    + intros b. apply book_insert_sorted.
    + apply match_step_sorted.
  - apply Forall_replicate. split; constructor.
Qed.

(** Where [addOrder] puts a new bid in a sorted side, and a new ask. *)
Lemma insert_bid_position o bids :
  bids_sorted bids ->
  exists l1 l2,
    bids = l1 ++ l2 /\
    Forall (fun x => price o <= price x) l1 /\
    Forall (fun x => price x < price o) l2 /\
    sort_by buy_key (bids ++ [o]) = l1 ++ o :: l2.
Proof.
  intros Hs.
  destruct (sort_by_snoc buy_key o bids) as (l1 & l2 & -> & H1 & H2 & Heq).
  { eapply StronglySorted_weaken; [|exact Hs]. unfold le_key, buy_key. intros; lia. }
  exists l1, l2. repeat split; [| |done].
  - eapply Forall_impl; [exact H1|]. unfold buy_key. intros; simpl in *; lia.
  - eapply Forall_impl; [exact H2|]. unfold buy_key. intros; simpl in *; lia.
Qed.

Lemma insert_ask_position o asks :
  asks_sorted asks ->
  exists l1 l2,
    asks = l1 ++ l2 /\
    Forall (fun x => price x <= price o) l1 /\
    Forall (fun x => price o < price x) l2 /\
    sort_by sell_key (asks ++ [o]) = l1 ++ o :: l2.
Proof. intros Hs. by apply (sort_by_snoc sell_key o asks). Qed.

(** C3.  After any sequence of [addOrder] calls on the initial array that
    all return: (1) in every slot the bids are in descending and the asks
    in ascending order of price; (2) a further Buy (Sell) submission puts
    its order behind every resident bid (ask) of the same or a better
    price and in front of the others, and leaves the resident orders in
    the order they had, so that at equal price an order inserted earlier
    stays in front of one inserted later; (3) every trade is between the
    first order of each side, and the orders behind them keep their
    places. *)
Theorem price_time_priority cs (obs : books) ts :
  submit_all cs order_books = Ok (obs, ts) ->
  (forall i bids asks, obs !! i = Some (bids, asks) ->
     bids_sorted bids /\ asks_sorted asks) /\
  (forall sym q p index bids asks,
     ticker_to_index sym = Ok index ->
     obs !! Z.to_nat index = Some (bids, asks) ->
     (exists l1 l2,
        bids = l1 ++ l2 /\
        Forall (fun x => p <= price x) l1 /\
        Forall (fun x => price x < p) l2 /\
        addOrder_insert "Buy" sym q p obs
          = Ok (<[Z.to_nat index := (l1 ++ Order "Buy" sym q p :: l2, asks)]> obs)) /\
     (exists l1 l2,
        asks = l1 ++ l2 /\
        Forall (fun x => price x <= p) l1 /\
        Forall (fun x => p < price x) l2 /\
        addOrder_insert "Sell" sym q p obs
          = Ok (<[Z.to_nat index := (bids, l1 ++ Order "Sell" sym q p :: l2)]> obs))) /\
  (forall b s t b' s',
     match_step b s = Some (t, b', s') ->
     head b = Some (trade_buy t) /\ head s = Some (trade_sell t) /\
     (b' = tail b \/ exists q, b' = set_quantity (trade_buy t) q :: tail b) /\
     (s' = tail s \/ exists q, s' = set_quantity (trade_sell t) q :: tail s)).
Proof.
  intros Hrun. pose proof (submit_all_sorted _ _ _ Hrun) as Hsorted.
  split; [|split].
  - intros i bids asks Hget.
    exact (Forall_lookup_1 _ _ _ _ Hsorted Hget).
  - intros sym q p index bids asks Hidx Hget.
    destruct (Forall_lookup_1 _ _ _ _ Hsorted Hget) as [Hb Hs]. simpl in Hb, Hs.
    split.
    + destruct (insert_bid_position (Order "Buy" sym q p) bids Hb)
        as (l1 & l2 & Hsplit & H1 & H2 & Heq).
      exists l1, l2. repeat split; [done..|].
      unfold addOrder_insert, get_slot. rewrite Hidx. cbn. rewrite Hget. cbn.
      by rewrite Heq.
    + destruct (insert_ask_position (Order "Sell" sym q p) asks Hs)
        as (l1 & l2 & Hsplit & H1 & H2 & Heq).
      exists l1, l2. repeat split; [done..|].
      unfold addOrder_insert, get_slot. rewrite Hidx. cbn. rewrite Hget. cbn.
      by rewrite Heq.
  - intros b s t b' s' Hstep. apply match_step_Some in Hstep
      as (bb & br & sb & sr & -> & -> & _ & -> & -> & ->). simpl.
    repeat split; [| ]; destruct (_ =? 0); eauto.
Qed.

Lemma price_time_priority_witness :
  exists (obs : books) ts,
    submit_all demo_run order_books = Ok (obs, ts) /\
    (forall i bids asks, obs !! i = Some (bids, asks) ->
       bids_sorted bids /\ asks_sorted asks) /\
    exists l1 l2 bids asks,
      obs !! 7%nat = Some (bids, asks) /\
      bids = l1 ++ l2 /\
      addOrder_insert "Buy" "TICKER7" 1 50 obs
        = Ok (<[7%nat := (l1 ++ Order "Buy" "TICKER7" 1 50 :: l2, asks)]> obs).
Proof.
  destruct (submit_all demo_run order_books) as [[obs ts]| |] eqn:Hrun;
    [| vm_compute in Hrun; discriminate Hrun ..].
  exists obs, ts. split; [reflexivity|].
  destruct (price_time_priority demo_run obs ts Hrun) as (Hsorted & Hins & _).
  split; [exact Hsorted|].
  destruct (obs !! 7%nat) as [[bids asks]|] eqn:Hget.
  - destruct (Hins "TICKER7" 1 50 7 bids asks eq_refl Hget)
      as [(l1 & l2 & Hsplit & _ & _ & Heq) _].
    by exists l1, l2, bids, asks.
  - apply lookup_ge_None in Hget. apply submit_all_length in Hrun.
    rewrite Hrun in Hget. vm_compute in Hget. lia.
Defined.

(** ** Orders out of range *)

Lemma book_insert_valid o b :
  valid_order o -> book_valid b -> book_valid (book_insert o b).
Proof.
  intros Ho [Hb Hs]. unfold book_insert, book_valid.
  destruct (String.eqb (order_type o) "Buy"); simpl.
  { split; [|done]. apply sort_by_Forall, Forall_app. split; [done|]. by constructor. }
  destruct (String.eqb (order_type o) "Sell"); simpl.
  { split; [done|]. apply sort_by_Forall, Forall_app. split; [done|]. by constructor. }
  done.
Qed.

Lemma match_step_valid b s t b' s' :
  book_valid (b, s) -> match_step b s = Some (t, b', s') -> book_valid (b', s').
Proof.
  intros [Hb Hs] H. apply match_step_Some in H
    as (bb & br & sb & sr & -> & -> & _ & -> & -> & ->).
  unfold book_valid, valid_order in *. simpl in *.
  inversion Hb as [|? ? [Hbq Hbp] Hbr]; inversion Hs as [|? ? [Hsq Hsp] Hsr]; subst.
  split.
  - destruct (Z.eqb_spec (quantity bb - Z.min (quantity bb) (quantity sb)) 0);
      [done|]. constructor; [simpl; lia | done].
  - destruct (Z.eqb_spec (quantity sb - Z.min (quantity bb) (quantity sb)) 0);
      [done|]. constructor; [simpl; lia | done].
Qed.

(** C4, as the code has it.  [addOrder] makes no check of quantity or
    price: on an array with all its slots it returns for every order
    type, quantity and price as soon as the ticker symbol denotes a slot.
    When every order submitted has a positive quantity and a price that is
    not negative, every order resident in the bids or asks of any slot
    has a positive quantity and a price that is not negative. *)
Theorem validity_is_the_callers (obs0 : books) :
  Z.of_nat (length obs0) = NUM_TICKERS ->
  (forall ty sym q p index,
     ticker_to_index sym = Ok index ->
     exists obs' ts, addOrder ty sym q p obs0 = Ok (obs', ts)) /\
  (forall cs obs ts,
     Forall (fun c => valid_order (order_of c)) cs ->
     Forall book_valid obs0 ->
     submit_all cs obs0 = Ok (obs, ts) ->
     forall i bids asks, obs !! i = Some (bids, asks) ->
       Forall valid_order bids /\ Forall valid_order asks).
Proof.
  intros Hlen. split.
  - intros ty sym q p index Hidx. by eapply addOrder_returns.
  - intros cs obs ts Hcs H0 Hrun i bids asks Hget.
    assert (Forall book_valid obs) as Hall.
    { eapply (submit_all_preserves (Forall book_valid)); [| exact Hcs | exact H0 | exact Hrun].
      intros c o o' t Hc Ho Hs. unfold submit in Hs.
      eapply addOrder_preserves; [| | exact Ho | exact Hs].
      - intros b. by apply book_insert_valid.
      - apply match_step_valid. }
    exact (Forall_lookup_1 _ _ _ _ Hall Hget).
Qed.

Lemma validity_is_the_callers_witness :
  (exists obs' ts, addOrder "Buy" "TICKER7" (-3) (-5) order_books = Ok (obs', ts)) /\
  (exists (obs : books) ts,
     submit_all demo_run order_books = Ok (obs, ts) /\
     forall i bids asks, obs !! i = Some (bids, asks) ->
       Forall valid_order bids /\ Forall valid_order asks).
Proof.
  destruct (validity_is_the_callers order_books order_books_length) as [Hret Hinv].
  split; [exact (Hret "Buy" "TICKER7" (-3) (-5) 7 eq_refl)|].
  destruct (submit_all demo_run order_books) as [[obs ts]| |] eqn:Hrun;
    [| vm_compute in Hrun; discriminate Hrun ..].
  exists obs, ts. split; [reflexivity|].
  apply (Hinv demo_run obs ts); [| | exact Hrun].
  - repeat constructor; simpl; lia.
  - apply Forall_replicate. split; constructor.
Defined.

(** C4, as stated, fails: an order with a negative quantity and a
    negative price is accepted and is resident afterwards. *)
Lemma invalid_order_is_accepted :
  exists obs : books,
    addOrder "Buy" "TICKER7" (-3) (-5) order_books = Ok (obs, []) /\
    obs !! 7%nat = Some ([Order "Buy" "TICKER7" (-3) (-5)], []).
Proof.
  eexists. split; [vm_compute; reflexivity | reflexivity].
Qed.

(** ** The random stream of a trader *)

Lemma lcg_range s : 0 <= lcg s < LCG_MODULUS.
Proof. unfold lcg. apply Z.mod_pos_bound. done. Qed.

(** The four draws of an iteration, written out. *)
Lemma worker_draws_Ok n s d :
  worker_draws n s = Ok d ->
  n <> 0 /\
  d = Draws (if lcg s <? LCG_MODULUS / 2 then "Buy" else "Sell")
            (lcg (lcg s) mod n)
            (lcg (lcg (lcg s)) mod 100 + 1)
            (lcg (lcg (lcg (lcg s))) mod 991 + 10)
            (lcg (lcg (lcg (lcg s)))).
Proof.
  unfold worker_draws. cbv zeta. destruct (Z.eqb_spec n 0); [done|].
  by intros [= <-].
Qed.

Lemma worker_next_Some w (obs obs' : books) w' ts :
  worker_next w obs = Ok (Some w', obs', ts) ->
  exists d ticker (obs1 : books) ts1 ts2,
    txn w < num_transactions w /\
    worker_draws (Z.of_nat (length (tickers w))) (local_seed w) = Ok d /\
    tickers w !! Z.to_nat (d_ticker_index d) = Some ticker /\
    addOrder (d_order_type d) ticker (d_quantity d) (d_price d) obs = Ok (obs1, ts1) /\
    matchOrder ticker obs1 = Ok (obs', ts2) /\
    ts = ts1 ++ ts2 /\
    w' = Worker (num_transactions w) (tickers w) (worker_id w) (d_seed d) (txn w + 1).
Proof.
  unfold worker_next. destruct (Z.ltb_spec (txn w) (num_transactions w)); [|done].
  destruct (worker_draws _ (local_seed w)) as [d| |] eqn:Hd; cbn; [|done..].
  destruct (tickers w !! Z.to_nat (d_ticker_index d)) as [ticker|] eqn:Htk; cbn; [|done].
  destruct (addOrder _ ticker _ _ obs) as [[obs1 ts1]| |] eqn:Hadd; cbn; [|done..].
  destruct (matchOrder ticker obs1) as [[obs2 ts2]| |] eqn:Hmatch; cbn; [|done..].
  intros [= <- <- <-]. by exists d, ticker, obs1, ts1, ts2.
Qed.

(** C5, as the code has it.  The side is taken from the upper half of the
    range of the first new seed: Buy when it is below [LCG_MODULUS // 2],
    which is 2^30, Sell otherwise.  The ticker index is the second new
    seed modulo the number of tickers; the quantity is the third modulo
    100, plus 1; the price is the fourth modulo 991, plus 10. *)
Theorem draws_derivation n s d :
  worker_draws n s = Ok d ->
  let s1 := lcg s in
  let s2 := lcg s1 in
  let s3 := lcg s2 in
  let s4 := lcg s3 in
  (d_order_type d = "Buy" <-> s1 < 2 ^ 30) /\
  (d_order_type d = "Sell" <-> 2 ^ 30 <= s1) /\
  d_ticker_index d = s2 mod n /\
  d_quantity d = s3 mod 100 + 1 /\
  d_price d = s4 mod 991 + 10.
Proof.
  intros H. apply worker_draws_Ok in H as [_ ->]. simpl.
  change (LCG_MODULUS / 2) with (2 ^ 30).
  destruct (Z.ltb_spec (lcg s) (2 ^ 30)); repeat split; try done; try lia.
Qed.

Lemma draws_derivation_witness :
  exists d,
    worker_draws NUM_TICKERS 123456789 = Ok d /\
    (d_order_type d = "Sell" <-> 2 ^ 30 <= lcg 123456789) /\
    d_quantity d = lcg (lcg (lcg 123456789)) mod 100 + 1.
Proof.
  destruct (worker_draws NUM_TICKERS 123456789) as [d| |] eqn:Hd;
    [| vm_compute in Hd; discriminate Hd ..].
  exists d. split; [reflexivity|].
  destruct (draws_derivation NUM_TICKERS 123456789 d Hd) as (_ & Hsell & _ & Hq & _).
  by split.
Defined.

(** C5, as stated, fails: the seeds 0 and 38 give new seeds with the same
    remainder modulo 2 and different sides. *)
Lemma side_is_not_the_low_bit :
  exists d1 d2,
    worker_draws NUM_TICKERS 0 = Ok d1 /\
    worker_draws NUM_TICKERS 38 = Ok d2 /\
    lcg 0 mod 2 = lcg 38 mod 2 /\
    d_order_type d1 = "Buy" /\ d_order_type d2 = "Sell".
Proof.
  eexists _, _. repeat split; vm_compute; reflexivity.
Qed.

(** C6.  The stream advances by
    [new_seed = (1103515245 * seed + 12345) mod 2^31]; the seed of a
    trader starts at [123456789 + worker_id]; and an iteration of a
    trader that yields has advanced the seed exactly four times, taking
    the side from the first new seed, the ticker from the second, the
    quantity from the third and the price from the fourth, and has
    submitted the order made of them. *)
Theorem lcg_stream :
  (forall s, lcg s = (1103515245 * s + 12345) mod 2 ^ 31) /\
  (forall n tks id, local_seed (worker n tks id) = 123456789 + id) /\
  (forall w (obs obs' : books) w' ts,
     worker_next w obs = Ok (Some w', obs', ts) ->
     let s1 := lcg (local_seed w) in
     let s2 := lcg s1 in
     let s3 := lcg s2 in
     let s4 := lcg s3 in
     local_seed w' = s4 /\
     txn w' = txn w + 1 /\
     exists ticker (obs1 : books) ts1 ts2,
       tickers w !! Z.to_nat (s2 mod Z.of_nat (length (tickers w))) = Some ticker /\
       addOrder (if s1 <? 2 ^ 30 then "Buy" else "Sell") ticker
                (s3 mod 100 + 1) (s4 mod 991 + 10) obs = Ok (obs1, ts1) /\
       matchOrder ticker obs1 = Ok (obs', ts2) /\
       ts = ts1 ++ ts2).
Proof.
  split; [done|]. split; [done|].
  intros w obs obs' w' ts H.
  apply worker_next_Some in H
    as (d & ticker & obs1 & ts1 & ts2 & _ & Hd & Htk & Hadd & Hmatch & -> & ->).
  apply worker_draws_Ok in Hd as [_ ->]. simpl in *.
  repeat split. by exists ticker, obs1, ts1, ts2.
Qed.

Lemma lcg_stream_witness :
  exists w' (obs' : books) ts,
    worker_next (worker 10 all_tickers 0) order_books = Ok (Some w', obs', ts) /\
    local_seed w' = lcg (lcg (lcg (lcg 123456789))) /\
    txn w' = 1.
Proof.
  destruct (worker_next (worker 10 all_tickers 0) order_books)
    as [[[[w'|] obs'] ts]| |] eqn:Hnext;
    [| vm_compute in Hnext; discriminate Hnext ..].
  exists w', obs', ts. split; [reflexivity|].
  destruct lcg_stream as (_ & _ & Hstep).
  destruct (Hstep _ _ _ _ _ Hnext) as (Hseed & Htxn & _).
  by split.
Defined.

(** C7.  The quantity of a generated order is between 1 and 100 and its
    price between 10 and 1000, whatever the seed; the seeds 25, 36, 759
    and 218 give the quantity 1, the quantity 100, the price 10 and the
    price 1000. *)
Theorem draws_bounds :
  (forall n s d, worker_draws n s = Ok d ->
     1 <= d_quantity d <= 100 /\ 10 <= d_price d <= 1000) /\
  (exists d, worker_draws NUM_TICKERS 25 = Ok d /\ d_quantity d = 1) /\
  (exists d, worker_draws NUM_TICKERS 36 = Ok d /\ d_quantity d = 100) /\
  (exists d, worker_draws NUM_TICKERS 759 = Ok d /\ d_price d = 10) /\
  (exists d, worker_draws NUM_TICKERS 218 = Ok d /\ d_price d = 1000).
Proof.
  split.
  - intros n s d H. apply worker_draws_Ok in H as [_ ->]. simpl.
    pose proof (Z.mod_pos_bound (lcg (lcg (lcg s))) 100).
    pose proof (Z.mod_pos_bound (lcg (lcg (lcg (lcg s)))) 991). lia.
  - repeat split; eexists; split; vm_compute; reflexivity.
Qed.

Lemma draws_bounds_witness :
  exists d,
    worker_draws NUM_TICKERS 123456789 = Ok d /\
    1 <= d_quantity d <= 100 /\ 10 <= d_price d <= 1000.
Proof.
  destruct (worker_draws NUM_TICKERS 123456789) as [d| |] eqn:Hd;
    [| vm_compute in Hd; discriminate Hd ..].
  exists d. split; [reflexivity|].
  destruct draws_bounds as [Hb _]. exact (Hb _ _ _ Hd).
Defined.

(** ** The simulation *)

(** The ticker at position [i] of [tickers] denotes slot [i]. *)
Lemma all_tickers_resolve :
  ticker_to_index <$> all_tickers = Ok <$> seqZ 0 NUM_TICKERS.
Proof. vm_compute. reflexivity. Qed.

(** The run at the end of the module returns, and no two of its fifty
    orders meet. *)
Lemma default_simulation_returns :
  exists obs : books,
    simulate_transactions DEFAULT_TRANSACTIONS DEFAULT_NUM_WORKERS = Ok (obs, []).
Proof. eexists. vm_compute. reflexivity. Qed.

(** * Further properties *)

(** ** Ticker names *)

Lemma digits_of_uint_acc d acc b :
  d <> Decimal.Nil \/ b = true ->
  PyStr.digits (Z.pos acc) b (NilEmpty.string_of_uint d)
  = Some (Z.pos (Pos.of_uint_acc d acc)).
Proof.
  revert acc b. induction d; intros acc b Hb; simpl;
    try (match goal with
         | |- PyStr.digits ?z true _ = Some (Z.pos (Pos.of_uint_acc d ?p)) =>
             replace z with (Z.pos p) by (vm_compute (nat_of_ascii _); lia)
         end; apply IHd; by right).
  destruct Hb as [?| ->]; done.
Qed.

Lemma digits_of_uint d b :
  d <> Decimal.Nil \/ b = true ->
  PyStr.digits 0 b (NilEmpty.string_of_uint d) = Some (Z.of_N (Pos.of_uint d)).
Proof.
  revert b. induction d; intros b Hb; simpl;
    try (by apply (digits_of_uint_acc d _ true); right).
  - destruct Hb as [?| ->]; done.
  - apply IHd. by right.
Qed.

Lemma lstrip_uint d :
  PyStr.lstrip (NilEmpty.string_of_uint d) = NilEmpty.string_of_uint d.
Proof. by destruct d. Qed.

Lemma int_of_uint d :
  d <> Decimal.Nil ->
  PyStr.int (NilEmpty.string_of_uint d) = Ok (Z.of_N (Pos.of_uint d)) /\
  PyStr.int (String "-" (NilEmpty.string_of_uint d)) = Ok (- Z.of_N (Pos.of_uint d)).
Proof.
  intros Hd. pose proof (digits_of_uint d false (or_introl Hd)) as Hdig.
  unfold PyStr.int. rewrite lstrip_uint.
  change (PyStr.lstrip (String "-" (NilEmpty.string_of_uint d)))
    with (String "-" (NilEmpty.string_of_uint d)).
  cbv beta match. rewrite Hdig. split; [|done].
  destruct d; [done|..]; cbn [NilEmpty.string_of_uint] in *;
    cbv beta match; by rewrite Hdig.
Qed.

(** [int] reads back what [str] writes. *)
Lemma int_str z : PyStr.int (PyStr.str z) = Ok z.
Proof.
  unfold PyStr.str. destruct z as [|p|p]; [done| |]; simpl;
    pose proof (Unsigned.to_uint_nonnil p) as Hnil;
    destruct (int_of_uint _ Hnil) as [Hpos Hneg];
    rewrite Unsigned.of_to in Hpos, Hneg;
    unfold NilZero.string_of_int, NilZero.string_of_uint;
    by destruct (Pos.to_uint p).
Qed.

Lemma str_lacks_T z : lacks "T" (PyStr.str z).
Proof.
  assert (forall d, lacks "T" (NilEmpty.string_of_uint d)) as Hu
    by (induction d; by simpl).
  assert (forall d, lacks "T" (NilZero.string_of_uint d)) as Hz
    by (intros d; destruct d; try apply (Hu (_ d)); by simpl).
  unfold PyStr.str. destruct (Z.to_int z); simpl; [apply Hz | split; [done | apply Hz]].
Qed.

Lemma remove_lacks s : lacks "T" s -> PyStr.remove "TICKER" s = s.
Proof.
  unfold PyStr.remove. induction s as [|c s IH]; [done|].
  intros [Hc Hs]. cbn [PyStr.remove_from String.prefix].
  destruct (ascii_dec "T" c) as [<-|_]; [done|].
  by rewrite IH.
Qed.

Lemma ticker_name_index z :
  ticker_to_index ("TICKER" +:+ PyStr.str z) = Ok (z mod NUM_TICKERS).
Proof.
  unfold ticker_to_index.
  replace (PyStr.remove "TICKER" ("TICKER" +:+ PyStr.str z)) with (PyStr.str z).
  - by rewrite int_str.
  - rewrite <- (remove_lacks (PyStr.str z)) at 1 by apply str_lacks_T.
    unfold PyStr.remove. simpl. by destruct (PyStr.str z).
Qed.

(** ** Outcomes and frame *)

Lemma ticker_to_index_outcome sym :
  (exists index, ticker_to_index sym = Ok index /\ 0 <= index < NUM_TICKERS) \/
  ticker_to_index sym = Raise ValueError.
Proof.
  destruct (ticker_to_index sym) as [index|e|] eqn:H.
  - left. exists index. split; [done|]. by eapply ticker_to_index_range.
  - right. revert H. unfold ticker_to_index, PyStr.int.
    destruct (match PyStr.lstrip _ with EmptyString => _ | _ => _ end); cbn; congruence.
  - by apply ticker_to_index_never_hangs in H.
Qed.

Lemma matchOrder_returns sym (obs : books) index :
  Z.of_nat (length obs) = NUM_TICKERS ->
  ticker_to_index sym = Ok index ->
  exists obs' ts, matchOrder sym obs = Ok (obs', ts).
Proof.
  intros Hlen Hidx. pose proof (ticker_to_index_range _ _ Hidx) as Hr.
  destruct (lookup_lt_is_Some_2 obs (Z.to_nat index)) as [[b s] Hget]; [lia|].
  destruct (match_loop_enough (match_fuel b s) b s) as (ts & b' & s' & Hloop);
    [unfold match_fuel; lia|].
  unfold matchOrder, get_slot. rewrite Hidx. cbn. rewrite Hget. cbn.
  rewrite Hloop. by eauto.
Qed.

Lemma matchOrder_length sym (obs obs' : books) ts :
  matchOrder sym obs = Ok (obs', ts) -> length obs' = length obs.
Proof.
  intros H. apply matchOrder_Ok in H as (? & ? & ? & ? & ? & _ & _ & _ & ->).
  apply length_insert.
Qed.

Lemma submit_all_no_cross cs (obs0 obs : books) ts :
  Forall no_cross obs0 ->
  submit_all cs obs0 = Ok (obs, ts) -> Forall no_cross obs.
Proof.
  intros H0 Hrun.
  eapply (submit_all_preserves (Forall no_cross) (fun _ => True));
    [| by apply Forall_true | exact H0 | exact Hrun].
  intros c o o' t _ Ho Hs. unfold submit in Hs.
  apply addOrder_Ok in Hs as (i & b0 & b' & s' & fuel & _ & _ & Hloop & ->).
  apply Forall_insert; [done|].
  apply match_step_None. eapply match_loop_settled, Hloop.
Qed.

Lemma order_books_no_cross : Forall no_cross order_books.
Proof. apply Forall_replicate. done. Qed.

(** X2.  On an array with all its slots, [addOrder] and [matchOrder]
    both return when the ticker symbol denotes a slot, which then lies in
    0..NUM_TICKERS-1, and leave the array at its length; otherwise both
    raise [ValueError].  Neither raises [IndexError] nor runs forever. *)
Theorem call_outcome ty sym q p (obs : books) :
  Z.of_nat (length obs) = NUM_TICKERS ->
  (exists index obs1 ts1 obs2 ts2,
     ticker_to_index sym = Ok index /\ 0 <= index < NUM_TICKERS /\
     addOrder ty sym q p obs = Ok (obs1, ts1) /\ length obs1 = length obs /\
     matchOrder sym obs = Ok (obs2, ts2) /\ length obs2 = length obs) \/
  (ticker_to_index sym = Raise ValueError /\
   addOrder ty sym q p obs = Raise ValueError /\
   matchOrder sym obs = Raise ValueError).
Proof.
  intros Hlen. destruct (ticker_to_index_outcome sym) as [(index & Hidx & Hr)|Herr].
  - left.
    destruct (addOrder_returns ty sym q p obs index Hlen Hidx) as (obs1 & ts1 & H1).
    destruct (matchOrder_returns sym obs index Hlen Hidx) as (obs2 & ts2 & H2).
    exists index, obs1, ts1, obs2, ts2.
    repeat split; [done | lia | lia | done | by eapply addOrder_length | done
                  | by eapply matchOrder_length].
  - right. split; [done|].
    unfold addOrder, addOrder_insert, matchOrder. rewrite Herr. by cbn.
Qed.

Lemma call_outcome_witness :
  addOrder "Buy" "TICK7" 1 10 order_books = Raise ValueError /\
  exists (obs1 : books) ts1, addOrder "Buy" " TICKER-1_0 " 1 10 order_books = Ok (obs1, ts1).
Proof.
  split.
  - destruct (call_outcome "Buy" "TICK7" 1 10 order_books order_books_length)
      as [(index & ? & ? & ? & ? & Hidx & _)|(_ & H & _)]; [|exact H].
    vm_compute in Hidx. discriminate Hidx.
  - destruct (call_outcome "Buy" " TICKER-1_0 " 1 10 order_books order_books_length)
      as [(index & obs1 & ts1 & ? & ? & _ & _ & H & _)|(Hidx & _)]; [by eauto|].
    vm_compute in Hidx. discriminate Hidx.
Defined.

(** X3.  A call of [matchOrder] or [addOrder] that returns leaves every
    slot other than the one of its ticker as it was, and the array at its
    length. *)
Theorem only_one_slot_changes sym (obs obs' : books) ts index :
  matchOrder sym obs = Ok (obs', ts) \/
  (exists ty q p, addOrder ty sym q p obs = Ok (obs', ts)) ->
  ticker_to_index sym = Ok index ->
  length obs' = length obs /\
  forall j, j <> Z.to_nat index -> obs' !! j = obs !! j.
Proof.
  intros H Hidx.
  assert (exists x : book, obs' = <[Z.to_nat index := x]> obs) as [x ->].
  { destruct H as [H|(ty & q & p & H)].
    - apply matchOrder_Ok in H as (i & b & s & b' & s' & Hi & _ & _ & ->).
      rewrite Hidx in Hi. injection Hi as <-. by eauto.
    - apply addOrder_Ok in H as (i & b & b' & s' & fuel & Hi & _ & _ & ->).
      rewrite Hidx in Hi. injection Hi as <-. by eauto. }
  split; [apply length_insert|].
  intros j Hj. by apply list_lookup_insert_ne.
Qed.

Lemma only_one_slot_changes_witness :
  exists (obs : books) ts,
    submit_all demo_run order_books = Ok (obs, ts) /\
    forall (obs' : books) ts',
      addOrder "Sell" "TICKER8" 5 1 obs = Ok (obs', ts') ->
      obs' !! 7%nat = obs !! 7%nat.
Proof.
  destruct (submit_all demo_run order_books) as [[obs ts]| |] eqn:Hrun;
    [| vm_compute in Hrun; discriminate Hrun ..].
  exists obs, ts. split; [reflexivity|]. intros obs' ts' Hadd.
  apply (only_one_slot_changes "TICKER8" obs obs' ts' 8); [| reflexivity | done].
  right. by exists "Sell", 5, 1.
Defined.

(** X4.  With an order type other than "Buy" and "Sell", [addOrder]
    inserts nothing and does what [matchOrder] does; on an array reached
    by [addOrder] calls from the initial one it returns the array
    unchanged and reports no trade. *)
Theorem other_order_types_add_nothing ty sym q p (obs : books) :
  ty <> "Buy" -> ty <> "Sell" ->
  addOrder ty sym q p obs = matchOrder sym obs /\
  forall cs ts0 index,
    submit_all cs order_books = Ok (obs, ts0) ->
    ticker_to_index sym = Ok index ->
    addOrder ty sym q p obs = Ok (obs, []).
Proof.
  intros Hb Hs.
  assert (addOrder ty sym q p obs = matchOrder sym obs) as Heq.
  { unfold addOrder, addOrder_insert.
    apply String.eqb_neq in Hb, Hs. rewrite Hb, Hs.
    unfold matchOrder. by destruct (ticker_to_index sym). }
  split; [done|]. intros cs ts0 index Hrun Hidx. rewrite Heq.
  pose proof (ticker_to_index_range _ _ Hidx) as Hr.
  pose proof (submit_all_length _ _ _ _ Hrun) as Hlen.
  pose proof order_books_length as Hlen0.
  destruct (lookup_lt_is_Some_2 obs (Z.to_nat index)) as [[b s] Hget]; [lia|].
  eapply matchOrder_settled; [done.. |].
  apply no_cross_match_step.
  eapply (Forall_lookup_1 no_cross); [|exact Hget].
  eapply submit_all_no_cross; [apply order_books_no_cross | exact Hrun].
Qed.

Lemma other_order_types_add_nothing_witness :
  addOrder "buy" "TICKER7" 10 100 order_books = Ok (order_books, []).
Proof.
  destruct (other_order_types_add_nothing "buy" "TICKER7" 10 100 order_books)
    as [_ H]; [done | done |].
  by apply (H [] [] 7).
Defined.

(** ** Orders and trades stay in their slot *)

Lemma homed_set_quantity ty i o q : homed ty i o -> homed ty i (set_quantity o q).
Proof. by intros [? ?]. Qed.

Lemma match_step_homed i b s t b' s' :
  Forall (homed "Buy" i) b -> Forall (homed "Sell" i) s ->
  match_step b s = Some (t, b', s') ->
  Forall (homed "Buy" i) b' /\ Forall (homed "Sell" i) s' /\ trade_ok t.
Proof.
  intros Hb Hs Hstep. apply match_step_Some in Hstep
    as (bb & br & sb & sr & -> & -> & Hp & -> & -> & ->).
  inversion Hb as [|? ? Hbb Hbr]; inversion Hs as [|? ? Hsb Hsr]; subst.
  repeat split.
  - destruct (_ =? 0); [done|]. constructor; [by apply homed_set_quantity|done].
  - destruct (_ =? 0); [done|]. constructor; [by apply homed_set_quantity|done].
  - by destruct Hbb.
  - by destruct Hsb.
  - destruct Hbb as [_ Hbi], Hsb as [_ Hsi]. simpl. congruence.
  - done.
Qed.

Lemma match_loop_homed i fuel b s ts b' s' :
  Forall (homed "Buy" i) b -> Forall (homed "Sell" i) s ->
  match_loop fuel b s = Some (ts, b', s') ->
  Forall (homed "Buy" i) b' /\ Forall (homed "Sell" i) s' /\ Forall trade_ok ts.
Proof.
  revert b s ts. induction fuel as [|fuel IH]; intros b s ts Hb Hs; [done|]. simpl.
  destruct (match_step b s) as [[[t b1] s1]|] eqn:Hstep.
  2: { intros [= <- <- <-]. by repeat split. }
  destruct (match_loop fuel b1 s1) as [[[ts1 b2] s2]|] eqn:Hloop; [|done].
  intros [= <- <- <-].
  destruct (match_step_homed _ _ _ _ _ _ Hb Hs Hstep) as (Hb1 & Hs1 & Ht).
  destruct (IH _ _ _ Hb1 Hs1 Hloop) as (H1 & H2 & H3).
  repeat split; [done..|]. by constructor.
Qed.

Lemma book_insert_homed i o b :
  ticker_to_index (ticker_symbol o) = Ok (Z.of_nat i) ->
  book_homed i b -> book_homed i (book_insert o b).
Proof.
  intros Ho [Hb Hs]. unfold book_insert, book_homed.
  destruct (String.eqb_spec (order_type o) "Buy"); simpl.
  { split; [|done]. apply sort_by_Forall, Forall_app. split; [done|]. by repeat constructor. }
  destruct (String.eqb_spec (order_type o) "Sell"); simpl.
  { split; [done|]. apply sort_by_Forall, Forall_app. split; [done|]. by repeat constructor. }
  done.
Qed.

Lemma addOrder_homed ty sym q p (obs obs' : books) ts :
  books_homed obs ->
  addOrder ty sym q p obs = Ok (obs', ts) ->
  books_homed obs' /\ Forall trade_ok ts.
Proof.
  intros Hobs H.
  apply addOrder_Ok in H as (index & b & b' & s' & fuel & Hidx & Hget & Hloop & ->).
  pose proof (ticker_to_index_range _ _ Hidx) as Hr.
  destruct (book_insert_homed (Z.to_nat index) (Order ty sym q p) b) as [Hb Hs].
  { simpl. rewrite Hidx. f_equal. lia. }
  { by apply Hobs. }
  destruct (match_loop_homed _ _ _ _ _ _ _ Hb Hs Hloop) as (Hb' & Hs' & Hts).
  split; [|done]. intros i x Hx.
  destruct (decide (i = Z.to_nat index)) as [->|Hne].
  - rewrite list_lookup_insert_eq in Hx by (by eapply lookup_lt_Some).
    injection Hx as <-. by split.
  - rewrite list_lookup_insert_ne in Hx by done. by apply Hobs.
Qed.

Lemma submit_all_homed cs (obs0 obs : books) ts :
  books_homed obs0 ->
  submit_all cs obs0 = Ok (obs, ts) ->
  books_homed obs /\ Forall trade_ok ts.
Proof.
  revert obs0 obs ts. induction cs as [|c cs IH]; intros obs0 obs ts H0; simpl.
  - intros [= <- <-]. by split.
  - destruct (submit c obs0) as [[obs1 ts1]| |] eqn:Hsub; cbn; [|done..].
    destruct (submit_all cs obs1) as [[obs2 ts2]| |] eqn:Hrest; cbn; [|done..].
    intros [= <- <-].
    destruct (addOrder_homed _ _ _ _ _ _ _ H0 Hsub) as [H1 Ht1].
    destruct (IH _ _ _ H1 Hrest) as [H2 Ht2].
    split; [done|]. by apply Forall_app.
Qed.

Lemma order_books_homed : books_homed order_books.
Proof.
  intros i b Hb. apply lookup_replicate in Hb as [-> _]. split; constructor.
Qed.

(** X5.  After any sequence of [addOrder] calls on the initial array
    that all return, every order among the bids of slot [i] has type
    "Buy", every order among its asks has type "Sell", and the ticker of
    each denotes slot [i]. *)
Theorem orders_live_in_their_slot cs (obs : books) ts :
  submit_all cs order_books = Ok (obs, ts) ->
  forall i bids asks, obs !! i = Some (bids, asks) ->
    Forall (fun o => order_type o = "Buy" /\
                     ticker_to_index (ticker_symbol o) = Ok (Z.of_nat i)) bids /\
    Forall (fun o => order_type o = "Sell" /\
                     ticker_to_index (ticker_symbol o) = Ok (Z.of_nat i)) asks.
Proof.
  intros Hrun i bids asks Hget.
  destruct (submit_all_homed _ _ _ _ order_books_homed Hrun) as [Hhome _].
  exact (Hhome i _ Hget).
Qed.

Lemma orders_live_in_their_slot_witness :
  exists (obs : books) ts bids asks,
    submit_all demo_run order_books = Ok (obs, ts) /\
    obs !! 7%nat = Some (bids, asks) /\
    Forall (fun o => order_type o = "Buy" /\
                     ticker_to_index (ticker_symbol o) = Ok 7) bids.
Proof.
  destruct (submit_all demo_run order_books) as [[obs ts]| |] eqn:Hrun;
    [| vm_compute in Hrun; discriminate Hrun ..].
  destruct (obs !! 7%nat) as [[bids asks]|] eqn:Hget.
  - exists obs, ts, bids, asks. split; [reflexivity|]. split; [exact Hget|].
    exact (proj1 (orders_live_in_their_slot demo_run obs ts Hrun 7%nat bids asks Hget)).
  - apply lookup_ge_None in Hget. apply submit_all_length in Hrun.
    rewrite Hrun in Hget. vm_compute in Hget. lia.
Defined.

(** X6.  Every trade reported in such a run is between an order of type
    "Buy" and an order of type "Sell" whose tickers denote the same slot,
    the price of the sell order is not above the price of the buy order,
    and the traded quantity is the smaller of their two quantities. *)
Theorem trades_are_well_formed cs (obs : books) ts :
  submit_all cs order_books = Ok (obs, ts) -> Forall trade_ok ts.
Proof.
  intros Hrun. by destruct (submit_all_homed _ _ _ _ order_books_homed Hrun).
Qed.

Lemma trades_are_well_formed_witness :
  exists (obs : books) ts,
    submit_all demo_run order_books = Ok (obs, ts) /\ Forall trade_ok ts.
Proof.
  destruct (submit_all demo_run order_books) as [[obs ts]| |] eqn:Hrun;
    [| vm_compute in Hrun; discriminate Hrun ..].
  exists obs, ts. split; [reflexivity|].
  exact (trades_are_well_formed demo_run obs ts Hrun).
Defined.

(** ** Conservation of units *)

Lemma total_quantity_app l1 l2 :
  total_quantity (l1 ++ l2) = total_quantity l1 + total_quantity l2.
Proof.
  induction l1 as [|o l1 IH]; [done|].
  change ((o :: l1) ++ l2) with (o :: (l1 ++ l2)). rewrite !total_quantity_cons. lia.
Qed.

Lemma total_quantity_insert_by (key : order -> Z) x l :
  total_quantity (insert_by key x l) = quantity x + total_quantity l.
Proof.
  induction l as [|y l IH]; [done|]. cbn [insert_by].
  destruct (key x <=? key y); rewrite !total_quantity_cons; [done|].
  rewrite IH. lia.
Qed.

Lemma total_quantity_sort_by (key : order -> Z) l :
  total_quantity (sort_by key l) = total_quantity l.
Proof.
  induction l as [|x l IH]; [done|]. cbn [sort_by].
  rewrite total_quantity_insert_by, total_quantity_cons. lia.
Qed.

Lemma resident_quantity_book_insert o b :
  resident_quantity (book_insert o b)
  = resident_quantity b + submitted_quantity
      [Submission (order_type o) (ticker_symbol o) (quantity o) (price o)].
Proof.
  unfold book_insert, resident_quantity, submitted_quantity. cbn [foldr s_type s_quantity].
  destruct (String.eqb (order_type o) "Buy"); simpl.
  { rewrite total_quantity_sort_by, total_quantity_app.
    change (total_quantity [o]) with (quantity o + 0). lia. }
  destruct (String.eqb (order_type o) "Sell"); simpl.
  { rewrite total_quantity_sort_by, total_quantity_app.
    change (total_quantity [o]) with (quantity o + 0). lia. }
  lia.
Qed.

Lemma match_loop_quantity fuel b s ts b' s' :
  match_loop fuel b s = Some (ts, b', s') ->
  resident_quantity (b', s') + 2 * traded_quantity ts = resident_quantity (b, s).
Proof.
  revert b s ts. induction fuel as [|fuel IH]; intros b s ts; [done|]. simpl.
  destruct (match_step b s) as [[[t b1] s1]|] eqn:Hstep.
  2: { intros [= <- <- <-]. unfold traded_quantity. simpl. lia. }
  destruct (match_loop fuel b1 s1) as [[[ts1 b2] s2]|] eqn:Hloop; [|done].
  intros [= <- <- <-]. apply IH in Hloop.
  change (traded_quantity (t :: ts1)) with (trade_qty t + traded_quantity ts1).
  destruct (match_step_quantity _ _ _ _ _ Hstep) as [Hb Hs].
  unfold resident_quantity in *. simpl in *. lia.
Qed.

Lemma books_quantity_insert (obs : books) i b b' :
  obs !! i = Some b ->
  books_quantity (<[i := b']> obs)
  = books_quantity obs - resident_quantity b + resident_quantity b'.
Proof.
  revert i. induction obs as [|x obs IH]; intros i; [done|].
  destruct i as [|i]; simpl.
  - intros [= ->]. unfold books_quantity. simpl. lia.
  - intros Hget. unfold books_quantity in *. simpl. rewrite (IH _ Hget). lia.
Qed.

Lemma traded_quantity_app ts1 ts2 :
  traded_quantity (ts1 ++ ts2) = traded_quantity ts1 + traded_quantity ts2.
Proof.
  unfold traded_quantity. induction ts1 as [|t ts1 IH]; simpl; lia.
Qed.

Lemma addOrder_quantity ty sym q p (obs obs' : books) ts :
  addOrder ty sym q p obs = Ok (obs', ts) ->
  books_quantity obs' + 2 * traded_quantity ts
  = books_quantity obs + submitted_quantity [Submission ty sym q p].
Proof.
  intros H.
  apply addOrder_Ok in H as (index & b & b' & s' & fuel & _ & Hget & Hloop & ->).
  rewrite (books_quantity_insert _ _ _ _ Hget).
  apply match_loop_quantity in Hloop. rewrite <- surjective_pairing in Hloop.
  rewrite resident_quantity_book_insert in Hloop. simpl in Hloop. lia.
Qed.

(** X7.  Units are conserved by a run: the units resident in all slots
    afterwards plus twice the units traded equal the units resident
    before plus the units of the submissions of type "Buy" and "Sell". *)
Theorem units_are_conserved cs (obs0 obs : books) ts :
  submit_all cs obs0 = Ok (obs, ts) ->
  books_quantity obs + 2 * traded_quantity ts
  = books_quantity obs0 + submitted_quantity cs.
Proof.
  revert obs0 obs ts. induction cs as [|c cs IH]; intros obs0 obs ts; cbn [submit_all].
  - intros [= <- <-]. unfold traded_quantity, submitted_quantity. simpl. lia.
  - destruct (submit c obs0) as [[obs1 ts1]| |] eqn:Hsub; cbn; [|done..].
    destruct (submit_all cs obs1) as [[obs2 ts2]| |] eqn:Hrest; cbn; [|done..].
    intros [= <- <-]. apply IH in Hrest. apply addOrder_quantity in Hsub.
    rewrite traded_quantity_app.
    change (submitted_quantity [Submission (s_type c) (s_ticker c) (s_quantity c) (s_price c)])
      with (submitted_quantity [c]) in Hsub.
    assert (submitted_quantity (c :: cs) = submitted_quantity [c] + submitted_quantity cs) as ->.
    { unfold submitted_quantity. simpl. destruct (_ || _); lia. }
    lia.
Qed.

Lemma units_are_conserved_witness :
  exists (obs : books) ts,
    submit_all demo_run order_books = Ok (obs, ts) /\
    books_quantity obs + 2 * traded_quantity ts = 40.
Proof.
  destruct (submit_all demo_run order_books) as [[obs ts]| |] eqn:Hrun;
    [| vm_compute in Hrun; discriminate Hrun ..].
  exists obs, ts. split; [reflexivity|].
  by rewrite (units_are_conserved demo_run order_books obs ts Hrun).
Defined.

(** ** The queue of a price level *)

Section SortStable.
Context {A : Type} (key : A -> Z) (P : A -> Prop) `{!forall x, Decision (P x)}.
Hypothesis P_level : forall a b, P a -> P b -> key a = key b.

Lemma insert_by_filter x l :
  filter P (insert_by key x l) = filter P (x :: l).
Proof.
  induction l as [|y l IH]; [done|]. cbn [insert_by].
  destruct (Z.leb_spec (key x) (key y)) as [Hle|Hlt]; [done|].
  rewrite (filter_cons _ y), IH, !(filter_cons _ x), (filter_cons _ y).
  destruct (decide (P x)) as [Hx|]; [|done].
  destruct (decide (P y)) as [Hy|]; [|done].
  pose proof (P_level _ _ Hx Hy). lia.
Qed.

Lemma sort_by_filter l : filter P (sort_by key l) = filter P l.
Proof.
  induction l as [|x l IH]; [done|]. cbn [sort_by].
  by rewrite insert_by_filter, !(filter_cons _ x), IH.
Qed.
End SortStable.

Lemma insert_by_perm {A} (key : A -> Z) x l : insert_by key x l ≡ₚ x :: l.
Proof.
  induction l as [|y l IH]; [done|]. cbn [insert_by].
  destruct (key x <=? key y); [done|]. rewrite IH. apply Permutation_swap.
Qed.

Lemma sort_by_perm {A} (key : A -> Z) l : sort_by key l ≡ₚ l.
Proof.
  induction l as [|x l IH]; [done|]. cbn [sort_by].
  by rewrite insert_by_perm, IH.
Qed.

(** X8.  The first half of [addOrder] keeps every order of the side, and
    at every price the orders of that price keep their order, with the
    new order behind them when it has that price; this needs no
    assumption on the side. *)
Theorem price_levels_are_queues sym q p index (obs : books) bids asks :
  ticker_to_index sym = Ok index ->
  obs !! Z.to_nat index = Some (bids, asks) ->
  (exists bids',
     addOrder_insert "Buy" sym q p obs
       = Ok (<[Z.to_nat index := (bids', asks)]> obs) /\
     bids' ≡ₚ bids ++ [Order "Buy" sym q p] /\
     forall k, filter (fun x => price x = k) bids'
               = filter (fun x => price x = k) bids
                 ++ filter (fun x => price x = k) [Order "Buy" sym q p]) /\
  (exists asks',
     addOrder_insert "Sell" sym q p obs
       = Ok (<[Z.to_nat index := (bids, asks')]> obs) /\
     asks' ≡ₚ asks ++ [Order "Sell" sym q p] /\
     forall k, filter (fun x => price x = k) asks'
               = filter (fun x => price x = k) asks
                 ++ filter (fun x => price x = k) [Order "Sell" sym q p]).
Proof.
  intros Hidx Hget. split.
  - exists (sort_by buy_key (bids ++ [Order "Buy" sym q p])). split; [|split].
    + unfold addOrder_insert, get_slot. rewrite Hidx. cbn. by rewrite Hget.
    + apply sort_by_perm.
    + intros k. rewrite sort_by_filter, filter_app; [done|].
      unfold buy_key. intros a b Ha Hb. lia.
  - exists (sort_by sell_key (asks ++ [Order "Sell" sym q p])). split; [|split].
    + unfold addOrder_insert, get_slot. rewrite Hidx. cbn. by rewrite Hget.
    + apply sort_by_perm.
    + intros k. rewrite sort_by_filter, filter_app; [done|].
      unfold sell_key. intros a b Ha Hb. lia.
Qed.

Lemma price_levels_are_queues_witness :
  exists bids',
    addOrder_insert "Buy" "TICKER7" 1 100 crossed_books
      = Ok (<[7%nat := (bids', [Order "Sell" "TICKER7" 4 90])]> crossed_books) /\
    filter (fun x => price x = 100) bids'
      = [Order "Buy" "TICKER7" 10 100; Order "Buy" "TICKER7" 1 100].
Proof.
  destruct (price_levels_are_queues "TICKER7" 1 100 7 crossed_books
              [Order "Buy" "TICKER7" 10 100] [Order "Sell" "TICKER7" 4 90]
              eq_refl eq_refl) as [(bids' & Hins & _ & Hq) _].
  exists bids'. split; [exact Hins|]. by rewrite Hq.
Defined.

(** ** Traders and the simulation *)



Lemma ticker_name_slot i :
  0 <= i < NUM_TICKERS -> ticker_to_index ("TICKER" +:+ PyStr.str i) = Ok i.
Proof. intros Hi. rewrite ticker_name_index. f_equal. by apply Z.mod_small. Qed.





Lemma addOrder_then_matchOrder ty sym q p (obs obs1 : books) ts :
  addOrder ty sym q p obs = Ok (obs1, ts) -> matchOrder sym obs1 = Ok (obs1, []).
Proof.
  intros H. apply addOrder_Ok in H as (index & b & b' & s' & fuel & Hidx & Hget & Hloop & ->).
  eapply matchOrder_settled; [exact Hidx | | by eapply match_loop_settled].
  apply list_lookup_insert_eq. by eapply lookup_lt_Some.
Qed.

(** X9.  A resumption of [worker] that yields has submitted exactly one
    order, of type "Buy" or "Sell", for one of its tickers, with a
    quantity in 1..100 and a price in 10..1000; its result is that of the
    single [addOrder] call, the [matchOrder] call behind it changing and
    reporting nothing; the counter has advanced by one and the seed by
    four draws.  A resumption that stops has reached its number of
    transactions and changes nothing. *)
Theorem worker_step w (obs obs' : books) r ts :
  worker_next w obs = Ok (r, obs', ts) ->
  match r with
  | None => num_transactions w <= txn w /\ obs' = obs /\ ts = []
  | Some w' =>
      txn w < num_transactions w /\
      (exists c,
         submit c obs = Ok (obs', ts) /\
         (s_type c = "Buy" \/ s_type c = "Sell") /\
         s_ticker c ∈ tickers w /\
         1 <= s_quantity c <= 100 /\ 10 <= s_price c <= 1000) /\
      num_transactions w' = num_transactions w /\
      tickers w' = tickers w /\
      worker_id w' = worker_id w /\
      txn w' = txn w + 1 /\
      local_seed w' = iter4 (local_seed w)
  end.
Proof.
  destruct r as [w'|].
  - intros H. apply worker_next_Some in H
      as (d & ticker & obs1 & ts1 & ts2 & Hlt & Hd & Htk & Hadd & Hmatch & -> & ->).
    apply worker_draws_Ok in Hd as [_ ->]. simpl in *.
    rewrite (addOrder_then_matchOrder _ _ _ _ _ _ _ Hadd) in Hmatch.
    injection Hmatch as <- <-. rewrite app_nil_r.
    split; [done|]. split; [|done].
    eexists (Submission _ ticker _ _). split; [exact Hadd|]. simpl.
    pose proof (Z.mod_pos_bound (lcg (lcg (lcg (local_seed w)))) 100).
    pose proof (Z.mod_pos_bound (lcg (lcg (lcg (lcg (local_seed w))))) 991).
    repeat split; [| by eapply list_elem_of_lookup_2 | lia..].
    destruct (_ <? _); by eauto.
  - unfold worker_next. destruct (Z.ltb_spec (txn w) (num_transactions w)).
    + destruct (worker_draws _ (local_seed w)) as [d| |]; cbn; [|done..].
      destruct (tickers w !! Z.to_nat (d_ticker_index d)) as [ticker|]; cbn; [|done].
      destruct (addOrder _ ticker _ _ obs) as [[obs1 ts1]| |]; cbn; [|done..].
      by destruct (matchOrder ticker obs1) as [[obs2 ts2]| |].
    + by intros [= <- <-].
Qed.

Lemma worker_step_witness :
  exists w' (obs' : books) ts c,
    worker_next (worker 10 all_tickers 0) order_books = Ok (Some w', obs', ts) /\
    submit c order_books = Ok (obs', ts) /\
    txn w' = 1.
Proof.
  destruct (worker_next (worker 10 all_tickers 0) order_books)
    as [[[[w'|] obs'] ts]| |] eqn:Hnext;
    [| vm_compute in Hnext; discriminate Hnext ..].
  destruct (worker_step _ _ _ _ _ Hnext) as (_ & (c & Hc & _) & _ & _ & _ & Htxn & _).
  by exists w', obs', ts, c.
Defined.




















(** ** Trades of at least one unit *)

Lemma match_loop_valid_trades fuel b s ts b' s' :
  book_valid (b, s) ->
  match_loop fuel b s = Some (ts, b', s') ->
  book_valid (b', s') /\ Forall (fun t => 1 <= trade_qty t) ts.
Proof.
  revert b s ts. induction fuel as [|fuel IH]; intros b s ts Hv; [done|]. simpl.
  destruct (match_step b s) as [[[t b1] s1]|] eqn:Hstep.
  2: { intros [= <- <- <-]. by split. }
  destruct (match_loop fuel b1 s1) as [[[ts1 b2] s2]|] eqn:Hloop; [|done].
  intros [= <- <- <-].
  destruct (IH _ _ _ (match_step_valid _ _ _ _ _ Hv Hstep) Hloop) as [Hv' Hts].
  split; [done|]. constructor; [|done].
  apply match_step_Some in Hstep
    as (bb & br & sb & sr & -> & -> & _ & -> & _ & _).
  destruct Hv as [Hb Hs]. simpl in *.
  inversion Hb as [|? ? [Hbq _] _]; inversion Hs as [|? ? [Hsq _] _]; subst. lia.
Qed.

(** X12.  When every order submitted has a positive quantity and a price
    that is not negative, every trade moves at least one unit. *)
Theorem no_empty_trades cs (obs0 obs : books) ts :
  Forall (fun c => valid_order (order_of c)) cs ->
  Forall book_valid obs0 ->
  submit_all cs obs0 = Ok (obs, ts) ->
  Forall (fun t => 1 <= trade_qty t) ts.
Proof.
  intros Hcs. revert obs0 obs ts.
  induction Hcs as [|c cs Hc _ IH]; intros obs0 obs ts H0; cbn [submit_all].
  - by intros [= <- <-].
  - destruct (submit c obs0) as [[obs1 ts1]| |] eqn:Hsub; cbn; [|done..].
    destruct (submit_all cs obs1) as [[obs2 ts2]| |] eqn:Hrest; cbn; [|done..].
    intros [= <- <-]. unfold submit in Hsub.
    assert (Forall book_valid obs1) as H1.
    { eapply addOrder_preserves; [| | exact H0 | exact Hsub].
      - intros b. by apply book_insert_valid.
      - apply match_step_valid. }
    apply Forall_app. split; [|by eapply IH].
    apply addOrder_Ok in Hsub as (index & b & b' & s' & fuel & _ & Hget & Hloop & _).
    eapply match_loop_valid_trades; [|exact Hloop].
    rewrite <- surjective_pairing. apply book_insert_valid; [done|].
    eapply Forall_lookup_1; [exact H0 | exact Hget].
Qed.

Lemma no_empty_trades_witness :
  exists (obs : books) ts,
    submit_all demo_run order_books = Ok (obs, ts) /\
    length ts = 4%nat /\ Forall (fun t => 1 <= trade_qty t) ts.
Proof.
  destruct (submit_all demo_run order_books) as [[obs ts]| |] eqn:Hrun;
    [| vm_compute in Hrun; discriminate Hrun ..].
  exists obs, ts. split; [reflexivity|]. split.
  - vm_compute in Hrun. by injection Hrun as <- <-.
  - apply (no_empty_trades demo_run order_books obs ts); [| | exact Hrun].
    + repeat constructor; simpl; lia.
    + apply Forall_replicate. split; constructor.
Defined.

(** A submission of no units trades no units. *)
Example empty_trade :
  exists obs : books,
    addOrder "Buy" "TICKER7" 0 100
      (<[7%nat := ([], [Order "Sell" "TICKER7" 4 90])]> order_books)
    = Ok (obs, [Trade (Order "Buy" "TICKER7" 0 100) (Order "Sell" "TICKER7" 4 90) 0]).
Proof. eexists. vm_compute. reflexivity. Qed.

(** ** [print_orders] *)

Lemma print_orders_from_Ok n i (obs : books) :
  0 <= i -> i + Z.of_nat n <= Z.of_nat (length obs) ->
  exists out js,
    print_orders_from n i obs = Ok out /\
    (forall name b s,
       (name, b, s) ∈ out <->
       exists j, i <= j < i + Z.of_nat n /\ name = "TICKER" +:+ PyStr.str j /\
                 obs !! Z.to_nat j = Some (b, s) /\ (b <> [] \/ s <> [])) /\
    out.*1.*1 = (fun j => "TICKER" +:+ PyStr.str j) <$> js /\
    StronglySorted Z.lt js /\
    Forall (fun j => i <= j < i + Z.of_nat n) js.
Proof.
  revert i. induction n as [|n IH]; intros i Hi Hlen.
  - exists [], []. split; [done|]. split; [|by repeat constructor].
    intros name b s. split; [by intros ?%elem_of_nil | intros (j & ? & _); lia].
  - destruct (IH (i + 1)) as (out & js & Hout & Hmem & Hnames & Hsorted & Hrange);
      [lia | lia |].
    destruct (lookup_lt_is_Some_2 obs (Z.to_nat i)) as [[b0 s0] Hget]; [lia|].
    cbn [print_orders_from]. unfold get_slot. rewrite Hget. cbn [mbind res_bind].
    rewrite Hout. cbn [mbind res_bind].
    assert (forall name b s,
              (exists j, i <= j < i + Z.of_nat (S n) /\ name = "TICKER" +:+ PyStr.str j /\
                         obs !! Z.to_nat j = Some (b, s) /\ (b <> [] \/ s <> []))
              <-> (name = "TICKER" +:+ PyStr.str i /\ b = b0 /\ s = s0 /\
                   (b0 <> [] \/ s0 <> []))
                  \/ (name, b, s) ∈ out) as Hsplit.
    { intros name b s. rewrite Hmem. split.
      - intros (j & Hj & Hn & Hg & Hne).
        destruct (decide (j = i)) as [->|Hji].
        + left. rewrite Hget in Hg. injection Hg as <- <-. done.
        + right. exists j. repeat split; [lia | lia | done..].
      - intros [(-> & -> & -> & Hne)|(j & Hj & Hn & Hg & Hne)].
        + exists i. repeat split; [lia | lia | done..].
        + exists j. repeat split; [lia | lia | done..]. }
    assert (Forall (fun j => i <= j < i + Z.of_nat (S n)) js) as Hrange'.
    { eapply Forall_impl; [exact Hrange|]. intros j ?. simpl in *. lia. }
    destruct b0 as [|o0 b0]; [destruct s0 as [|o0 s0]|].
    + exists out, js. split; [done|]. split; [|done].
      intros name b s. rewrite Hsplit. split; [by right|].
      intros [(_ & _ & _ & [?|?])|?]; done.
    + exists (("TICKER" +:+ PyStr.str i, [], o0 :: s0) :: out), (i :: js).
      split; [done|]. split; [|split; [|split]].
      * intros name b s. rewrite Hsplit, elem_of_cons. split.
        -- intros [[= -> -> ->]|?]; [left|by right]. repeat split. by right.
        -- intros [(-> & -> & -> & _)|?]; [by left | by right].
      * cbn. by rewrite Hnames.
      * constructor; [done|]. eapply Forall_impl; [exact Hrange|].
        intros j ?. simpl in *. lia.
      * constructor; [lia | done].
    + exists (("TICKER" +:+ PyStr.str i, o0 :: b0, s0) :: out), (i :: js).
      split; [done|]. split; [|split; [|split]].
      * intros name b s. rewrite Hsplit, elem_of_cons. split.
        -- intros [[= -> -> ->]|?]; [left|by right]. repeat split. by left.
        -- intros [(-> & -> & -> & _)|?]; [by left | by right].
      * cbn. by rewrite Hnames.
      * constructor; [done|]. eapply Forall_impl; [exact Hrange|].
        intros j ?. simpl in *. lia.
      * constructor; [lia | done].
Qed.

Lemma print_orders_from_short n i (obs : books) :
  0 <= i <= Z.of_nat (length obs) -> Z.of_nat (length obs) < i + Z.of_nat n ->
  print_orders_from n i obs = Raise IndexError.
Proof.
  revert i. induction n as [|n IH]; intros i Hi Hlen; [lia|].
  cbn [print_orders_from]. unfold get_slot.
  destruct (obs !! Z.to_nat i) as [[b0 s0]|] eqn:Hget; [|done].
  cbn [mbind res_bind]. rewrite IH; [done | |lia].
  apply lookup_lt_Some in Hget. lia.
Qed.

(** X13.  [print_orders] raises [IndexError] on an array with fewer than
    [NUM_TICKERS] slots.  Otherwise it lists exactly the slots among the
    first [NUM_TICKERS] that hold an order, each once with its two lists
    under the name "TICKER<slot>", in rising order of the slot, and each
    name denotes the slot it stands for. *)
Theorem print_orders_lists_the_open_slots (obs : books) :
  (Z.of_nat (length obs) < NUM_TICKERS -> print_orders obs = Raise IndexError) /\
  (NUM_TICKERS <= Z.of_nat (length obs) ->
   exists out slots,
     print_orders obs = Ok out /\
     (forall name b s,
        (name, b, s) ∈ out <->
        exists j, 0 <= j < NUM_TICKERS /\ name = "TICKER" +:+ PyStr.str j /\
                  obs !! Z.to_nat j = Some (b, s) /\ (b <> [] \/ s <> [])) /\
     ticker_to_index <$> out.*1.*1 = Ok <$> slots /\
     StronglySorted Z.lt slots).
Proof.
  split.
  - intros Hlen. apply print_orders_from_short; [lia|].
    change (Z.of_nat (Z.to_nat NUM_TICKERS)) with NUM_TICKERS. lia.
  - intros Hlen.
    destruct (print_orders_from_Ok (Z.to_nat NUM_TICKERS) 0 obs)
      as (out & js & Hout & Hmem & Hnames & Hsorted & Hrange); [lia | |].
    { change (Z.of_nat (Z.to_nat NUM_TICKERS)) with NUM_TICKERS. lia. }
    exists out, js. split; [done|]. split; [done|]. split; [|done].
    rewrite Hnames, <- list_fmap_compose.
    apply Forall_fmap_ext. eapply Forall_impl; [exact Hrange|].
    intros j Hj. cbv beta in Hj |- *. unfold compose. apply ticker_name_slot.
    change (Z.of_nat (Z.to_nat NUM_TICKERS)) with NUM_TICKERS in Hj. lia.
Qed.

Lemma print_orders_lists_the_open_slots_witness :
  print_orders (take 7 order_books) = Raise IndexError /\
  print_orders order_books = Ok [] /\
  exists out, print_orders crossed_books = Ok out /\ length out = 1%nat.
Proof.
  split; [|split].
  - apply (print_orders_lists_the_open_slots (take 7 order_books)). by vm_compute.
  - vm_compute. reflexivity.
  - destruct (print_orders_lists_the_open_slots crossed_books) as [_ H].
    destruct H as (out & slots & Hout & _); [by vm_compute|].
    exists out. split; [exact Hout|].
    vm_compute in Hout. by injection Hout as <-.
Defined.

(** ** The incoming order against the other side *)

Lemma all_below_no_trades fuel l s ts b' s' :
  all_below l s -> match_loop fuel l s = Some (ts, b', s') -> ts = [].
Proof.
  intros Hbelow. destruct fuel as [|fuel]; [done|].
  rewrite match_loop_no_trade; [by intros [= <- <- <-]|].
  apply no_cross_match_step.
  destruct l as [|x l]; [done|]. destruct s as [|y s]; [done|]. simpl.
  inversion Hbelow as [|? ? Hx _]; subst. by inversion Hx.
Qed.

Lemma all_below_front_update l o q s :
  all_below l (o :: s) -> all_below l (set_quantity o q :: s).
Proof.
  intros H. eapply Forall_impl; [exact H|]. intros x Hx. simpl in *.
  inversion Hx; subst. by constructor.
Qed.

Lemma all_below_tail l o s : all_below l (o :: s) -> all_below l s.
Proof.
  intros H. eapply Forall_impl; [exact H|]. intros x Hx. simpl in *. by inversion Hx.
Qed.

Lemma all_below_front_update_l o q l s :
  all_below (o :: l) s -> all_below (set_quantity o q :: l) s.
Proof. intros H. inversion H; subst. by constructor. Qed.

(** A bid in front of bids that are all below the asks trades alone,
    against asks of rising price, for no more than its quantity. *)
Lemma buy_sweep fuel o br s lo ts b' s' :
  asks_sorted s -> Forall (fun y => lo <= price y) s -> all_below br s ->
  match_loop fuel (o :: br) s = Some (ts, b', s') ->
  Forall (fun t => trade_buy t = set_quantity o (quantity (trade_buy t)) /\
                   lo <= price (trade_sell t) <= price o) ts /\
  StronglySorted (fun t1 t2 => price (trade_sell t1) <= price (trade_sell t2)) ts /\
  (0 <= quantity o -> Forall (fun y => 0 <= quantity y) s ->
   traded_quantity ts <= quantity o).
Proof.
  revert o s lo ts. induction fuel as [|fuel IH]; intros o s lo ts Hs Hlo Hbelow; [done|].
  cbn [match_loop]. destruct (match_step (o :: br) s) as [[[t b1] s1]|] eqn:Hstep.
  2: { intros [= <- <- <-]. split; [constructor|]. split; [constructor|].
       intros. unfold traded_quantity. simpl. lia. }
  destruct (match_loop fuel b1 s1) as [[[ts1 b2] s2]|] eqn:Hloop; [|done].
  intros [= <- <- <-].
  apply match_step_Some in Hstep
    as (bb & br' & sb & sr & [= <- <-] & -> & Hp & -> & -> & ->).
  cbn [trade_qty] in Hloop. set (m := Z.min (quantity o) (quantity sb)) in *.
  inversion Hlo as [|? ? Hlo_sb Hlo_sr]; subst.
  pose proof Hs as Hs0. unfold asks_sorted in Hs. inversion Hs as [|? ? Hs_sr Hs_sb]; subst.
  assert (asks_sorted (if quantity sb - m =? 0 then sr
                       else set_quantity sb (quantity sb - m) :: sr)) as Hs1.
  { unfold asks_sorted in *. destruct (quantity sb - m =? 0); [done|].
    by apply (sorted_front_update (fun x y => x <= y)). }
  assert (Forall (fun y => price sb <= price y)
            (if quantity sb - m =? 0 then sr
             else set_quantity sb (quantity sb - m) :: sr)) as Hlo1.
  { destruct (quantity sb - m =? 0); [done|]. constructor; [simpl; lia | done]. }
  assert (all_below br (if quantity sb - m =? 0 then sr
                        else set_quantity sb (quantity sb - m) :: sr)) as Hbelow1.
  { destruct (quantity sb - m =? 0);
      [by eapply all_below_tail | by apply all_below_front_update]. }
  assert (Forall (fun t => trade_buy t = set_quantity o (quantity (trade_buy t)) /\
                           price sb <= price (trade_sell t) <= price o) ts1 /\
          StronglySorted (fun t1 t2 => price (trade_sell t1) <= price (trade_sell t2)) ts1 /\
          (0 <= quantity o -> Forall (fun y => 0 <= quantity y) (sb :: sr) ->
           traded_quantity ts1 <= quantity o - m)) as (Hts1 & Hsorted1 & Hq1).
  { destruct (Z.eqb_spec (quantity o - m) 0) as [Hz|Hnz].
    - apply all_below_no_trades in Hloop as ->; [|done].
      split; [constructor|]. split; [constructor|].
      intros. unfold traded_quantity. simpl. lia.
    - destruct (IH _ _ _ _ Hs1 Hlo1 Hbelow1 Hloop) as (H1 & H2 & H3).
      split; [|split; [done|]].
      + eapply Forall_impl; [exact H1|]. intros t [Ht1 Ht2]. simpl in *.
        split; [|done]. rewrite Ht1 at 1. done.
      + intros Hq Hall. simpl in H3. apply H3; [lia|].
        inversion Hall; subst.
        destruct (quantity sb - m =? 0); [done|]. constructor; [simpl; lia | done]. }
  split; [|split].
  - constructor.
    + simpl. split; [by destruct o | lia].
    + eapply Forall_impl; [exact Hts1|]. intros t [? ?]. simpl in *. split; [done | lia].
  - constructor; [done|]. eapply Forall_impl; [exact Hts1|].
    intros t [_ ?]. simpl in *. lia.
  - intros Hq Hall. specialize (Hq1 Hq Hall).
    change (traded_quantity (Trade o sb m :: ts1)) with (m + traded_quantity ts1). lia.
Qed.

(** The same for an ask in front of asks that are all above the bids. *)
Lemma sell_sweep fuel o sr b hi ts b' s' :
  bids_sorted b -> Forall (fun x => price x <= hi) b -> all_below b sr ->
  match_loop fuel b (o :: sr) = Some (ts, b', s') ->
  Forall (fun t => trade_sell t = set_quantity o (quantity (trade_sell t)) /\
                   price o <= price (trade_buy t) <= hi) ts /\
  StronglySorted (fun t1 t2 => price (trade_buy t2) <= price (trade_buy t1)) ts /\
  (0 <= quantity o -> Forall (fun x => 0 <= quantity x) b ->
   traded_quantity ts <= quantity o).
Proof.
  revert o b hi ts. induction fuel as [|fuel IH]; intros o b hi ts Hb Hhi Hbelow; [done|].
  cbn [match_loop]. destruct (match_step b (o :: sr)) as [[[t b1] s1]|] eqn:Hstep.
  2: { intros [= <- <- <-]. split; [constructor|]. split; [constructor|].
       intros. unfold traded_quantity. simpl. lia. }
  destruct (match_loop fuel b1 s1) as [[[ts1 b2] s2]|] eqn:Hloop; [|done].
  intros [= <- <- <-].
  apply match_step_Some in Hstep
    as (bb & br & sb & sr' & -> & [= <- <-] & Hp & -> & -> & ->).
  cbn [trade_qty] in Hloop. set (m := Z.min (quantity bb) (quantity o)) in *.
  inversion Hhi as [|? ? Hhi_bb Hhi_br]; subst.
  pose proof Hb as Hb0. unfold bids_sorted in Hb. inversion Hb as [|? ? Hb_br Hb_bb]; subst.
  assert (bids_sorted (if quantity bb - m =? 0 then br
                       else set_quantity bb (quantity bb - m) :: br)) as Hb1.
  { unfold bids_sorted in *. destruct (quantity bb - m =? 0); [done|].
    by apply (sorted_front_update (fun x y => y <= x)). }
  assert (Forall (fun x => price x <= price bb)
            (if quantity bb - m =? 0 then br
             else set_quantity bb (quantity bb - m) :: br)) as Hhi1.
  { destruct (quantity bb - m =? 0); [done|]. constructor; [simpl; lia | done]. }
  assert (all_below (if quantity bb - m =? 0 then br
                     else set_quantity bb (quantity bb - m) :: br) sr) as Hbelow1.
  { destruct (quantity bb - m =? 0);
      [by inversion Hbelow | by apply all_below_front_update_l]. }
  assert (Forall (fun t => trade_sell t = set_quantity o (quantity (trade_sell t)) /\
                           price o <= price (trade_buy t) <= price bb) ts1 /\
          StronglySorted (fun t1 t2 => price (trade_buy t2) <= price (trade_buy t1)) ts1 /\
          (0 <= quantity o -> Forall (fun x => 0 <= quantity x) (bb :: br) ->
           traded_quantity ts1 <= quantity o - m)) as (Hts1 & Hsorted1 & Hq1).
  { destruct (Z.eqb_spec (quantity o - m) 0) as [Hz|Hnz].
    - apply all_below_no_trades in Hloop as ->; [|done].
      split; [constructor|]. split; [constructor|].
      intros. unfold traded_quantity. simpl. lia.
    - destruct (IH _ _ _ _ Hb1 Hhi1 Hbelow1 Hloop) as (H1 & H2 & H3).
      split; [|split; [done|]].
      + eapply Forall_impl; [exact H1|]. intros t [Ht1 Ht2]. simpl in *.
        split; [|done]. rewrite Ht1 at 1. done.
      + intros Hq Hall. simpl in H3. apply H3; [lia|].
        inversion Hall; subst.
        destruct (quantity bb - m =? 0); [done|]. constructor; [simpl; lia | done]. }
  split; [|split].
  - constructor.
    + simpl. split; [by destruct o | lia].
    + eapply Forall_impl; [exact Hts1|]. intros t [? ?]. simpl in *. split; [done | lia].
  - constructor; [done|]. eapply Forall_impl; [exact Hts1|].
    intros t [_ ?]. simpl in *. lia.
  - intros Hq Hall. specialize (Hq1 Hq Hall).
    change (traded_quantity (Trade bb o m :: ts1)) with (m + traded_quantity ts1). lia.
Qed.

(** In a sorted and uncrossed book every bid is below every ask. *)
Lemma sorted_no_cross_all_below bids asks :
  bids_sorted bids -> asks_sorted asks -> no_cross (bids, asks) ->
  all_below bids asks.
Proof.
  intros Hb Hs Hnc. destruct asks as [|y asks].
  { apply Forall_true. intros ?. constructor. }
  destruct bids as [|x bids]; [constructor|].
  simpl in Hnc. unfold bids_sorted, asks_sorted in *.
  inversion Hb as [|? ? _ Hx]; inversion Hs as [|? ? _ Hy]; subst.
  assert (forall z, price z <= price x -> Forall (fun y0 => price z < price y0) (y :: asks)) as H.
  { intros z Hz. constructor; [lia|]. eapply Forall_impl; [exact Hy|].
    intros ? ?. simpl in *. lia. }
  constructor; [apply H; lia|].
  eapply Forall_impl; [exact Hx|]. intros z Hz. simpl in Hz. by apply H.
Qed.

Lemma Forall_exists_bound (f : order -> Z) (l : list order) :
  exists lo hi, Forall (fun y => lo <= f y <= hi) l.
Proof.
  induction l as [|y l (lo & hi & IH)]; [by exists 0, 0|].
  exists (Z.min lo (f y)), (Z.max hi (f y)). constructor; [lia|].
  eapply Forall_impl; [exact IH|]. intros ? ?. simpl in *. lia.
Qed.

(** The trades of one call of [addOrder] on a sorted and uncrossed slot. *)
Lemma addOrder_sweep ty sym q p (obs obs' : books) ts index bids asks :
  ticker_to_index sym = Ok index ->
  obs !! Z.to_nat index = Some (bids, asks) ->
  bids_sorted bids -> asks_sorted asks -> no_cross (bids, asks) ->
  addOrder ty sym q p obs = Ok (obs', ts) ->
  (ty = "Buy" ->
   Forall (fun t => trade_buy t = Order "Buy" sym (quantity (trade_buy t)) p /\
                    price (trade_sell t) <= p) ts /\
   StronglySorted (fun t1 t2 => price (trade_sell t1) <= price (trade_sell t2)) ts /\
   (0 <= q -> Forall (fun y => 0 <= quantity y) asks -> traded_quantity ts <= q)) /\
  (ty = "Sell" ->
   Forall (fun t => trade_sell t = Order "Sell" sym (quantity (trade_sell t)) p /\
                    p <= price (trade_buy t)) ts /\
   StronglySorted (fun t1 t2 => price (trade_buy t2) <= price (trade_buy t1)) ts /\
   (0 <= q -> Forall (fun x => 0 <= quantity x) bids -> traded_quantity ts <= q)).
Proof.
  intros Hidx Hget Hb Hs Hnc Hadd.
  apply addOrder_Ok in Hadd as (i & b & b' & s' & fuel & Hi & Hget' & Hloop & _).
  rewrite Hidx in Hi. injection Hi as <-. rewrite Hget in Hget'. injection Hget' as <-.
  pose proof (sorted_no_cross_all_below _ _ Hb Hs Hnc) as Hbelow.
  unfold book_insert in Hloop. cbn [order_type fst snd] in Hloop.
  split.
  - intros ->. cbn in Hloop.
    destruct (insert_bid_position (Order "Buy" sym q p) bids Hb)
      as (l1 & l2 & -> & H1 & H2 & Heq).
    rewrite Heq in Hloop. destruct l1 as [|x l1].
    + destruct (Forall_exists_bound price asks) as (lo & hi & Hbound).
      destruct (buy_sweep _ _ _ _ lo _ _ _ Hs
                  ltac:(eapply Forall_impl; [exact Hbound|]; by intros ? [? ?])
                  Hbelow Hloop) as (Ht & Hsorted & Hq).
      split; [|by split].
      eapply Forall_impl; [exact Ht|]. intros t [Ht1 Ht2]. simpl in *. split; [done|lia].
    + apply all_below_no_trades in Hloop as ->.
      { split; [constructor|]. split; [constructor|].
        intros. unfold traded_quantity. simpl. lia. }
      inversion H1 as [|? ? Hx _]; subst. simpl in Hx.
      inversion Hbelow as [|? ? Hxa Hrest]; subst.
      rewrite <- app_comm_cons. constructor; [done|].
      apply Forall_app in Hrest as [Hl1 Hl2]. apply Forall_app. split; [done|].
      constructor; [|done].
      eapply Forall_impl; [exact Hxa|]. intros ? ?. simpl in *. lia.
  - intros ->. cbn in Hloop.
    destruct (insert_ask_position (Order "Sell" sym q p) asks Hs)
      as (l1 & l2 & -> & H1 & H2 & Heq).
    rewrite Heq in Hloop. destruct l1 as [|y l1].
    + destruct (Forall_exists_bound price bids) as (lo & hi & Hbound).
      destruct (sell_sweep _ _ _ _ hi _ _ _ Hb
                  ltac:(eapply Forall_impl; [exact Hbound|]; by intros ? [? ?])
                  Hbelow Hloop) as (Ht & Hsorted & Hq).
      split; [|by split].
      eapply Forall_impl; [exact Ht|]. intros t [Ht1 Ht2]. simpl in *. split; [done|lia].
    + apply all_below_no_trades in Hloop as ->.
      { split; [constructor|]. split; [constructor|].
        intros. unfold traded_quantity. simpl. lia. }
      inversion H1 as [|? ? Hy _]; subst. simpl in Hy.
      eapply Forall_impl; [exact Hbelow|]. intros x Hx. simpl in Hx.
      inversion Hx as [|? ? Hxy Hrest]; subst.
      rewrite <- app_comm_cons. constructor; [done|].
      apply Forall_app in Hrest as [Hl1 Hl2]. apply Forall_app. split; [done|].
      constructor; [simpl in *; lia | done].
Qed.

Lemma submit_all_valid cs (obs0 obs : books) ts :
  Forall (fun c => valid_order (order_of c)) cs ->
  Forall book_valid obs0 ->
  submit_all cs obs0 = Ok (obs, ts) -> Forall book_valid obs.
Proof.
  intros Hcs H0 Hrun.
  eapply (submit_all_preserves (Forall book_valid)); [| exact Hcs | exact H0 | exact Hrun].
  intros c o o' t Hc Ho Hs. unfold submit in Hs.
  eapply addOrder_preserves; [| | exact Ho | exact Hs].
  - intros b. by apply book_insert_valid.
  - apply match_step_valid.
Qed.

Lemma order_books_valid : Forall book_valid order_books.
Proof. apply Forall_replicate. split; constructor. Qed.



Lemma traded_quantity_nonneg fuel b s ts b' s' :
  Forall (fun o => 0 <= quantity o) b -> Forall (fun o => 0 <= quantity o) s ->
  match_loop fuel b s = Some (ts, b', s') -> 0 <= traded_quantity ts.
Proof.
  revert b s ts. induction fuel as [|fuel IH]; intros b s ts Hb Hs; [done|].
  cbn [match_loop]. destruct (match_step b s) as [[[t b1] s1]|] eqn:Hstep.
  2: { intros [= <- <- <-]. unfold traded_quantity. simpl. lia. }
  destruct (match_loop fuel b1 s1) as [[[ts1 b2] s2]|] eqn:Hloop; [|done].
  intros [= <- <- <-].
  apply match_step_Some in Hstep
    as (bb & br & sb & sr & -> & -> & _ & -> & -> & ->).
  inversion Hb as [|? ? Hbb Hbr]; inversion Hs as [|? ? Hsb Hsr]; subst.
  cbn [trade_qty] in Hloop. set (m := Z.min (quantity bb) (quantity sb)) in *.
  change (traded_quantity (Trade bb sb m :: ts1)) with (m + traded_quantity ts1).
  assert (0 <= traded_quantity ts1); [|lia].
  eapply IH; [| |exact Hloop].
  - destruct (quantity bb - m =? 0); [done|]. constructor; [simpl; lia|done].
  - destruct (quantity sb - m =? 0); [done|]. constructor; [simpl; lia|done].
Qed.

(** X15.  When all orders submitted so far had a positive quantity and a
    price that is not negative, a further call of [addOrder] with a
    quantity that is not negative trades in total at most that quantity,
    and never a negative amount. *)
Theorem fills_never_exceed_the_order cs (obs obs' : books) ts0 ty sym q p ts :
  Forall (fun c => valid_order (order_of c)) cs ->
  submit_all cs order_books = Ok (obs, ts0) ->
  0 <= q ->
  addOrder ty sym q p obs = Ok (obs', ts) ->
  0 <= traded_quantity ts <= q.
Proof.
  intros Hcs Hrun Hq Hadd.
  pose proof Hadd as Hadd0.
  apply addOrder_Ok in Hadd0 as (index & [bids asks] & b' & s' & fuel & Hidx & Hget & Hloop & _).
  destruct (Forall_lookup_1 _ _ _ _ (submit_all_sorted _ _ _ Hrun) Hget) as [Hb Hs].
  pose proof (Forall_lookup_1 _ _ _ _
                (submit_all_no_cross _ _ _ _ order_books_no_cross Hrun) Hget) as Hnc.
  destruct (Forall_lookup_1 _ _ _ _
              (submit_all_valid _ _ _ _ Hcs order_books_valid Hrun) Hget) as [Hvb Hvs].
  simpl in Hvb, Hvs.
  assert (Forall (fun x => 0 <= quantity x) bids) as Hqb.
  { eapply Forall_impl; [exact Hvb|]. intros ? [? ?]. lia. }
  assert (Forall (fun x => 0 <= quantity x) asks) as Hqs.
  { eapply Forall_impl; [exact Hvs|]. intros ? [? ?]. lia. }
  assert (0 <= traded_quantity ts) as Hnonneg.
  { eapply traded_quantity_nonneg; [| |exact Hloop].
    - unfold book_insert. cbn [order_type fst snd].
      destruct (String.eqb ty "Buy"); cbn [fst snd].
      { apply sort_by_Forall, Forall_app. split; [done|]. by constructor. }
      by destruct (String.eqb ty "Sell").
    - unfold book_insert. cbn [order_type fst snd].
      destruct (String.eqb ty "Buy"); cbn [fst snd]; [done|].
      destruct (String.eqb ty "Sell"); cbn [fst snd]; [|done].
      apply sort_by_Forall, Forall_app. split; [done|]. by constructor. }
  split; [done|].
  destruct (addOrder_sweep _ _ _ _ _ _ _ _ _ _ Hidx Hget Hb Hs Hnc Hadd) as [HB HS].
  destruct (String.eqb_spec ty "Buy") as [->|Hnb].
  { destruct (HB eq_refl) as (_ & _ & H). by apply H. }
  destruct (String.eqb_spec ty "Sell") as [->|Hns].
  { destruct (HS eq_refl) as (_ & _ & H). by apply H. }
  unfold book_insert in Hloop. cbn [order_type] in Hloop.
  apply String.eqb_neq in Hnb, Hns. rewrite Hnb, Hns in Hloop. cbn [fst snd] in Hloop.
  apply all_below_no_trades in Hloop as ->.
  - unfold traded_quantity. simpl. lia.
  - by apply sorted_no_cross_all_below.
Qed.

Lemma fills_never_exceed_the_order_witness :
  exists (obs obs' : books) ts0 ts,
    submit_all asks_run order_books = Ok (obs, ts0) /\
    addOrder "Buy" "TICKER7" 5 100 obs = Ok (obs', ts) /\
    0 <= traded_quantity ts <= 5.
Proof.
  destruct (submit_all asks_run order_books) as [[obs ts0]| |] eqn:Hrun;
    [| vm_compute in Hrun; discriminate Hrun ..].
  destruct (addOrder "Buy" "TICKER7" 5 100 obs) as [[obs' ts]| |] eqn:Hadd.
  - exists obs, obs', ts0, ts. split; [reflexivity|]. split; [exact Hadd|].
    apply (fills_never_exceed_the_order asks_run obs obs' ts0 "Buy" "TICKER7" 5 100 ts);
      [repeat constructor; simpl; lia | exact Hrun | lia | exact Hadd].
  - vm_compute in Hrun. injection Hrun as <- <-. vm_compute in Hadd. discriminate Hadd.
  - vm_compute in Hrun. injection Hrun as <- <-. vm_compute in Hadd. discriminate Hadd.
Defined.
